(** * spec-parser: the knowledge model and the graph emitter

    A shallow embedding of [helper.py] and [utils.py].  Python dictionaries
    are insertion ordered and the code iterates over them (to write pages, to
    populate the reverse index), so they are association lists with Python's
    update discipline; an rdflib graph is a finite set of triples. *)

From Stdlib Require Import ZArith Lia Ascii String.
From stdpp Require Import gmap strings list.

Local Open Scope string_scope.
Local Open Scope list_scope.
Local Open Scope Z_scope.

#[local] Set Warnings "-clear-no-such-hyp".

(** ** Strings *)

Definition colon : ascii := ":"%char.

(** [re.split(r':', s)]: the segments between the colons, never empty. *)
Fixpoint re_split_colon (s : string) : list string :=
  match s with
  | EmptyString => [EmptyString]
  | String c s' =>
      if Ascii.eqb c colon then EmptyString :: re_split_colon s'
      else match re_split_colon s' with
           | [] => [String c EmptyString]
           | seg :: segs => String c seg :: segs
           end
  end.

Fixpoint count_colons (s : string) : nat :=
  match s with
  | EmptyString => O
  | String c s' => (if Ascii.eqb c colon then 1 else 0)%nat + count_colons s'
  end.

(** [sep.join(xs)] *)
Fixpoint join (sep : string) (xs : list string) : string :=
  match xs with
  | [] => ""
  | [x] => x
  | x :: rest => x +:+ sep +:+ join sep rest
  end.

Definition startswith (p s : string) : bool := String.prefix p s.

Definition endswith_slash (s : string) : bool :=
  match String.get (String.length s - 1) s with
  | Some c => Ascii.eqb c "/"%char
  | None => false
  end.

(** [posixpath.join(a, *p)] *)
Definition path_join (a : string) (p : list string) : string :=
  fold_left
    (fun path b =>
       if startswith "/" b then b
       else if (String.eqb path "" || endswith_slash path)%bool then path +:+ b
       else path +:+ "/" +:+ b)
    p a.

(** ** Dictionaries *)

Definition dict (V : Type) : Type := list (string * V).

Section Dict.
Context {V : Type}.

(** [d.get(k)] *)
Fixpoint dict_get (k : string) (d : dict V) : option V :=
  match d with
  | [] => None
  | (k', v) :: d' => if String.eqb k k' then Some v else dict_get k d'
  end.

(** [k in d] *)
Definition dict_mem (k : string) (d : dict V) : bool :=
  match dict_get k d with Some _ => true | None => false end.

(** [d[k] = v]: a present key keeps its position, a new one goes last. *)
Fixpoint dict_set (k : string) (v : V) (d : dict V) : dict V :=
  match d with
  | [] => [(k, v)]
  | (k', v') :: d' =>
      if String.eqb k k' then (k', v) :: d' else (k', v') :: dict_set k v d'
  end.

(** [d.get(k, dflt)] *)
Definition dict_get_default (k : string) (dflt : V) (d : dict V) : V :=
  match dict_get k d with Some v => v | None => dflt end.

Definition dict_keys (d : dict V) : list string := map fst d.
Definition dict_values (d : dict V) : list V := map snd d.

(** [union_dict(d1, d2)]: the keys of [d2] that [d1] lacks are added. *)
Definition union_dict (d1 d2 : dict V) : dict V :=
  fold_left
    (fun d1 kv => if negb (dict_mem kv.1 d1) then dict_set kv.1 kv.2 d1 else d1)
    d2 d1.
End Dict.


(** ** The logging library, as far as the code relies on it

    Every logger of the code is [logging.getLogger(<class name>)]: a child of
    the root logger that the sources never configure (level NOTSET, no
    handler, no filter, propagation on).  A record it issues is therefore
    enabled by the root level and offered to the root handlers. *)

Module logging.

Definition INFO : Z := 20.
Definition WARNING : Z := 30.
Definition ERROR : Z := 40.

Record LogRecord := { name : string; levelno : Z; msg : string }.

(** The filters a handler may carry: the one [helper.py] declares, with its
    [worst_level] field, and any other, known by the levels it lets pass. *)
Inductive Filter :=
| ErrorFoundFilter (worst_level : Z)
| OtherFilter (passes : Z -> bool).

Record Handler := { level : Z; filters : list Filter }.

Record Root := {
  root_level : Z;
  handlers : list Handler;
  (** every record the code has issued, oldest first *)
  issued : list LogRecord
}.

(** [Filterer.filter]: the filters run in order until one rejects. *)
Fixpoint run_filters (lvl : Z) (fs : list Filter) : list Filter :=
  match fs with
  | [] => []
  | ErrorFoundFilter worst_level :: fs' =>
      (* ErrorFoundFilter.filter *)
      ErrorFoundFilter (if worst_level <? lvl then lvl else worst_level)
        :: run_filters lvl fs'
  | OtherFilter passes :: fs' =>
      OtherFilter passes :: (if passes lvl then run_filters lvl fs' else fs')
  end.

(** [Logger.callHandlers], one handler *)
Definition call_handler (lvl : Z) (h : Handler) : Handler :=
  if level h <=? lvl then {| level := level h; filters := run_filters lvl (filters h) |}
  else h.

(** [Logger.log(lvl, msg)] on the logger called [nm] *)
Definition log (nm : string) (lvl : Z) (m : string) (r : Root) : Root :=
  {| root_level := root_level r;
     handlers := if root_level r <=? lvl then map (call_handler lvl) (handlers r)
                 else handlers r;
     issued := issued r ++ [{| name := nm; levelno := lvl; msg := m |}] |}.

Definition error (nm m : string) : Root -> Root := log nm ERROR m.
Definition warning (nm m : string) : Root -> Root := log nm WARNING m.

End logging.

Abbreviation ErrorFoundFilter := logging.ErrorFoundFilter.

(** [ErrorFoundFilter()] *)
Definition ErrorFoundFilter_new : logging.Filter := ErrorFoundFilter logging.INFO.

Fixpoint first_ErrorFoundFilter (fs : list logging.Filter) : option Z :=
  match fs with
  | [] => None
  | ErrorFoundFilter worst_level :: _ => Some worst_level
  | logging.OtherFilter _ :: fs' => first_ErrorFoundFilter fs'
  end.

Fixpoint isError_handlers (hs : list logging.Handler) : bool :=
  match hs with
  | [] => false
  | h :: hs' =>
      match first_ErrorFoundFilter (logging.filters h) with
      | Some worst_level => logging.ERROR <=? worst_level
      | None => isError_handlers hs'
      end
  end.

Definition isError (r : logging.Root) : bool := isError_handlers (logging.handlers r).

(** ** rdflib, as far as the code relies on it *)

Module rdflib.

Inductive Node := URIRef (uri : string).

#[global] Instance Node_eq_dec : EqDecision Node.
Proof. solve_decision. Defined.

#[global] Instance Node_countable : Countable Node :=
  inj_countable' (fun n => match n with URIRef u => u end) URIRef
    (fun n => match n with URIRef _ => eq_refl end).

Definition Triple : Type := Node * Node * Node.

(** A graph is its set of triples; [Graph.bind] only names a prefix for the
    serializer and is left out.  rdflib has a logger of its own, on which
    [URIRef] warns about a string that no URI can be; its records are not
    followed: [logging.issued] lists what the loggers of [utils.py] issue. *)
Abbreviation Graph := (gset Triple).

(** [g.add(t)] *)
Definition add (t : Triple) (g : Graph) : Graph := g ∪ {[ t ]}.

Definition RDF_type : Node := URIRef "http://www.w3.org/1999/02/22-rdf-syntax-ns#type".
Definition OWL (local : string) : Node := URIRef ("http://www.w3.org/2002/07/owl#" +:+ local).
Definition RDFS_subClassOf : Node := URIRef "http://www.w3.org/2000/01/rdf-schema#subClassOf".
Definition RDFS_range : Node := URIRef "http://www.w3.org/2000/01/rdf-schema#range".
Definition RDFS_domain : Node := URIRef "http://www.w3.org/2000/01/rdf-schema#domain".

End rdflib.

Import rdflib.

(** ** Exceptions *)

(** [Exception] is what rdflib's serializer raises on a graph it cannot
    write. *)
Inductive exn := KeyError | IndexError | UnboundLocalError | Exception.

Inductive outcome (A : Type) :=
| Ok (a : A)
| Raise (e : exn).
Arguments Ok {A} a.
Arguments Raise {A} e.

(** ** The raw records handed over by the parser *)

(** [{'name': ..., 'values': [...]}]: a metadata line or an attribute line *)
Record NameValues := { nv_name : string; nv_values : list string }.
(** [{'name': ..., 'values': [<attribute lines>]}]: a property-usage block *)
Record PropUsage := { pu_name : string; pu_values : list NameValues }.
(** [{'name': ..., 'value': ...}]: a vocabulary entry *)
Record EntryLine := { en_name : string; en_value : string }.

(** ** Objects *)

Record SpecClass_obj := {
  cls_namespace_name : string;
  cls_name : string;
  cls_summary : string;
  cls_description : string;
  cls_metadata : dict (list string);
  cls_properties : dict (dict (list string))
}.

Record SpecProperty_obj := {
  prop_namespace_name : string;
  prop_name : string;
  prop_summary : string;
  prop_description : string;
  prop_metadata : dict (list string)
}.

Record SpecVocab_obj := {
  voc_namespace_name : string;
  voc_name : string;
  voc_summary : string;
  voc_description : string;
  voc_metadata : dict (list string);
  voc_entries : dict string
}.

(** [namespace_el] of [Spec.add_namespace] *)
Record Namespace_el := {
  ns_name : string;
  ns_classes : dict SpecClass_obj;
  ns_properties : dict SpecProperty_obj;
  ns_vocabs : dict SpecVocab_obj
}.

(** A run has one [Spec] object; every entity's [self.spec] is that object, so
    the entities do not store it and the methods that reach through it take
    the registry's current state. *)
Record Spec_obj := {
  spec_dir : string;
  namespaces : dict Namespace_el;
  dataprop_refs : dict (list string)
}.

(** The parsed command line: [args.out], [args.table] and
    [getattr(args, 'refs', False)]. *)
Record Args := { out : string; table : bool; refs : bool }.

(** What is outside the objects: the root logger, and the files written so
    far, oldest first, each with its whole content. *)
Record World := { root : logging.Root; written : list (string * string) }.

Record Config := {
  id_metadata_prefix : string;
  metadata_defaults : dict (list string);
  property_defaults : dict (list string);
  version : string
}.

(** [config.py] and [__version__.py] are not part of the sources: their values
    are the fields of a [Config], a parameter of everything that reads them. *)

(** ** helper.py: the identifier resolver *)

Definition gen_rdf_id (cfg : Config) (entity namespace_name : string) : string :=
  let splitted := re_split_colon entity in
  if (2 <? length splitted)%nat then entity
  else if (length splitted =? 2)%nat then
    id_metadata_prefix cfg +:+ nth 0 splitted "" +:+ "#" +:+ List.last splitted ""
  else
    id_metadata_prefix cfg +:+ namespace_name +:+ "#" +:+ List.last splitted "".

(** ** utils.py: metadata extraction

    The three classes carry the same [extract_metadata]; its loop is stated
    once, for the logger and the entity at hand. *)

Fixpoint metadata_loop (logger self_name : string) (mdata_list : list NameValues)
    (metadata : dict (list string)) (r : logging.Root)
    : dict (list string) * logging.Root :=
  match mdata_list with
  | [] => (metadata, r)
  | mdata_line :: rest =>
      let _key := nv_name mdata_line in
      let _values := nv_values mdata_line in
      let r' :=
        if dict_mem _key metadata then
          logging.error logger
            (self_name +:+ ": Metadata key '" +:+ _key +:+ "' already exists") r
        else r in
      metadata_loop logger self_name rest (dict_set _key _values metadata) r'
  end.

Definition extract_metadata_of (cfg : Config) (logger namespace_name self_name : string)
    (metadata : dict (list string)) (mdata_list : list NameValues) (r : logging.Root)
    : dict (list string) * logging.Root :=
  (* add id metadata *)
  let metadata :=
    dict_set "id" [id_metadata_prefix cfg +:+ namespace_name +:+ "#" +:+ self_name] metadata in
  let '(metadata, r) := metadata_loop logger self_name mdata_list metadata r in
  (* add all default metadata fields *)
  (union_dict metadata (metadata_defaults cfg), r).

Definition nl : string := String (ascii_of_nat 10) EmptyString.

(** The part of a page the three [dump_md] share: header, headline, summary,
    description and metadata. *)
Definition md_top (cfg : Config) (self_name summary description : string)
    (metadata : dict (list string)) : string :=
  "<!-- Auto generated markdown by Spec-parser v" +:+ version cfg +:+ " -->" +:+ nl +:+ nl
  +:+ "# " +:+ self_name +:+ nl +:+ nl
  +:+ "## Summary" +:+ nl +:+ nl
  +:+ summary +:+ nl
  +:+ nl
  +:+ "## Description" +:+ nl +:+ nl
  +:+ description +:+ nl
  +:+ nl
  +:+ "## Metadata" +:+ nl +:+ nl
  +:+ String.concat ""
        (map (fun nv => "- " +:+ nv.1 +:+ ": " +:+ join " " nv.2 +:+ nl) metadata)
  +:+ nl.

(** [with safe_open(fname, 'w') as f: f.write(...)] *)
Definition write_file (fname content : string) (w : World) : World :=
  {| root := root w; written := written w ++ [(fname, content)] |}.

Definition set_root (r : logging.Root) (w : World) : World :=
  {| root := r; written := written w |}.

(** ** class SpecClass *)

Module SpecClass.

Definition logger : string := "SpecClass".

Definition extract_metadata (cfg : Config) (self : SpecClass_obj)
    (mdata_list : list NameValues) (r : logging.Root) : SpecClass_obj * logging.Root :=
  let '(metadata, r) :=
    extract_metadata_of cfg logger (cls_namespace_name self) (cls_name self)
      (cls_metadata self) mdata_list r in
  ({| cls_namespace_name := cls_namespace_name self; cls_name := cls_name self;
      cls_summary := cls_summary self; cls_description := cls_description self;
      cls_metadata := metadata; cls_properties := cls_properties self |}, r).

(** The inner loop of [extract_properties].  [_key] is a local of the whole
    method: it is unbound until the first attribute line of any block. *)
Fixpoint avline_loop (self_name name : string) (avline_list : list NameValues)
    (_key : option string) (subprops_dict : dict (list string)) (r : logging.Root)
    : option string * dict (list string) * logging.Root :=
  match avline_list with
  | [] => (_key, subprops_dict, r)
  | avline :: rest =>
      let k := nv_name avline in
      let _values := nv_values avline in
      let r' :=
        if dict_mem k subprops_dict then
          logging.error logger
            (self_name +:+ ": Attribute key '" +:+ k
               +:+ "' already exists in data property '" +:+ name +:+ "'") r
        else r in
      avline_loop self_name name rest (Some k) (dict_set k _values subprops_dict) r'
  end.

(** The outer loop of [extract_properties]: the message of a duplicate
    property reads [_key], and raises when it is still unbound. *)
Fixpoint props_loop (cfg : Config) (self_name : string) (props_list : list PropUsage)
    (_key : option string) (properties : dict (dict (list string))) (r : logging.Root)
    : outcome (dict (dict (list string))) * logging.Root :=
  match props_list with
  | [] => (Ok properties, r)
  | prop :: rest =>
      let name := pu_name prop in
      let avline_list := pu_values prop in
      let '(_key, subprops_dict, r) := avline_loop self_name name avline_list _key [] r in
      let continue r :=
        (* add all default property fields *)
        let subprops_dict := union_dict subprops_dict (property_defaults cfg) in
        props_loop cfg self_name rest _key (dict_set name subprops_dict properties) r in
      if dict_mem name properties then
        match _key with
        | Some k =>
            continue
              (logging.error logger
                 (self_name +:+ ": Data property `" +:+ k +:+ "` already exists") r)
        | None => (Raise UnboundLocalError, r)
        end
      else continue r
  end.

(** populate all refs to data property *)
Fixpoint refs_loop (ref : string) (keys : list string) (dataprop_refs : dict (list string))
    : dict (list string) :=
  match keys with
  | [] => dataprop_refs
  | dataprop :: rest =>
      let dataprop_refs :=
        if negb (dict_mem dataprop dataprop_refs) then dict_set dataprop [] dataprop_refs
        else dataprop_refs in
      refs_loop ref rest
        (dict_set dataprop (dict_get_default dataprop [] dataprop_refs ++ [ref]) dataprop_refs)
  end.

Definition extract_properties (cfg : Config) (self : SpecClass_obj)
    (props_list : list PropUsage) (spec : Spec_obj) (r : logging.Root)
    : outcome (SpecClass_obj * Spec_obj) * logging.Root :=
  match props_loop cfg (cls_name self) props_list None (cls_properties self) r with
  | (Raise e, r) => (Raise e, r)
  | (Ok properties, r) =>
      let ref := cls_namespace_name self +:+ ":" +:+ cls_name self in
      (Ok ({| cls_namespace_name := cls_namespace_name self; cls_name := cls_name self;
              cls_summary := cls_summary self; cls_description := cls_description self;
              cls_metadata := cls_metadata self; cls_properties := properties |},
           {| spec_dir := spec_dir spec; namespaces := namespaces spec;
              dataprop_refs := refs_loop ref (dict_keys properties) (dataprop_refs spec) |}),
       r)
  end.

(** [SpecClass(spec, namespace_name, name, summary, description, metadata, props)] *)
Definition __init__ (cfg : Config) (spec : Spec_obj)
    (namespace_name name summary description : string)
    (metadata : list NameValues) (props : list PropUsage) (r : logging.Root)
    : outcome (SpecClass_obj * Spec_obj) * logging.Root :=
  let self :=
    {| cls_namespace_name := namespace_name; cls_name := name; cls_summary := summary;
       cls_description := description; cls_metadata := []; cls_properties := [] |} in
  let '(self, r) := extract_metadata cfg self metadata r in
  extract_properties cfg self props spec r.

Definition header_list : list string := ["type"; "minCount"; "maxCount"].

Definition dump_md (cfg : Config) (self : SpecClass_obj) (args : Args) (w : World) : World :=
  let fname :=
    path_join (out args) [cls_namespace_name self; "Classes"; cls_name self +:+ ".md"] in
  let props :=
    if table args then
      "|" +:+ join "|" ("property" :: header_list) +:+ "|" +:+ nl
      +:+ "|" +:+ String.concat "" (replicate (length header_list + 1) "---|") +:+ nl
      +:+ String.concat ""
            (map (fun ps =>
                    "|" +:+ ps.1
                    +:+ String.concat ""
                          (map (fun subprop =>
                                  "|" +:+ join " " (dict_get_default subprop ["NA"] ps.2))
                               header_list)
                    +:+ "|" +:+ nl)
                 (cls_properties self))
    else
      String.concat ""
        (map (fun ps =>
                "- " +:+ ps.1 +:+ nl
                +:+ String.concat ""
                      (map (fun kv => "  - " +:+ kv.1 +:+ ": " +:+ join " " kv.2 +:+ nl) ps.2)
                +:+ nl)
             (cls_properties self)) in
  write_file fname
    (md_top cfg (cls_name self) (cls_summary self) (cls_description self) (cls_metadata self)
     +:+ "## Properties" +:+ nl +:+ nl +:+ props)
    w.

Definition _gen_rdf (cfg : Config) (self : SpecClass_obj) (g : Graph) : outcome Graph :=
  match dict_get "id" (cls_metadata self) with
  | None => Raise KeyError
  | Some [] => Raise IndexError
  | Some (id :: _) =>
      let cur := URIRef id in
      let g := add (cur, RDF_type, OWL "Class") g in
      Ok (fold_left
            (fun g subclass =>
               add (cur, RDFS_subClassOf,
                    URIRef (gen_rdf_id cfg subclass (cls_namespace_name self))) g)
            (dict_get_default "SubclassOf" [] (cls_metadata self)) g)
  end.

End SpecClass.

(** ** class SpecProperty *)

Module SpecProperty.

Definition logger : string := "SpecProperty".

Definition extract_metadata (cfg : Config) (self : SpecProperty_obj)
    (mdata_list : list NameValues) (r : logging.Root) : SpecProperty_obj * logging.Root :=
  let '(metadata, r) :=
    extract_metadata_of cfg logger (prop_namespace_name self) (prop_name self)
      (prop_metadata self) mdata_list r in
  ({| prop_namespace_name := prop_namespace_name self; prop_name := prop_name self;
      prop_summary := prop_summary self; prop_description := prop_description self;
      prop_metadata := metadata |}, r).

(** [SpecProperty(spec, namespace_name, name, summary, description, metadata)] *)
Definition __init__ (cfg : Config) (namespace_name name summary description : string)
    (metadata : list NameValues) (r : logging.Root) : SpecProperty_obj * logging.Root :=
  let self :=
    {| prop_namespace_name := namespace_name; prop_name := name; prop_summary := summary;
       prop_description := description; prop_metadata := [] |} in
  extract_metadata cfg self metadata r.

Definition dump_md (cfg : Config) (spec : Spec_obj) (self : SpecProperty_obj) (args : Args)
    (w : World) : World :=
  let fname :=
    path_join (out args) [prop_namespace_name self; "Properties"; prop_name self +:+ ".md"] in
  let references :=
    if refs args then
      "## References" +:+ nl +:+ nl
      +:+ String.concat ""
            (map (fun name => "- " +:+ name +:+ nl)
                 (dict_get_default (prop_name self) [] (dataprop_refs spec)))
    else "" in
  write_file fname
    (md_top cfg (prop_name self) (prop_summary self) (prop_description self)
       (prop_metadata self)
     +:+ references)
    w.

(** The truth value of [self.metadata.get('Nature', 'ObjectProperty')]: the
    default is a non-empty string, a stored value is a list. *)
Definition nature_truthy (metadata : dict (list string)) : bool :=
  match dict_get "Nature" metadata with
  | None => true
  | Some [] => false
  | Some (_ :: _) => true
  end.

Definition _gen_rdf (cfg : Config) (self : SpecProperty_obj) (g : Graph) : outcome Graph :=
  match dict_get "id" (prop_metadata self) with
  | None => Raise KeyError
  | Some [] => Raise IndexError
  | Some (id :: _) =>
      let cur := URIRef id in
      (* nature of property *)
      let g :=
        if nature_truthy (prop_metadata self) then add (cur, RDF_type, OWL "ObjectProperty") g
        else add (cur, RDF_type, OWL "DatatypeProperty") g in
      let g :=
        fold_left
          (fun g _val =>
             add (cur, RDFS_range, URIRef (gen_rdf_id cfg _val (prop_namespace_name self))) g)
          (dict_get_default "Range" [] (prop_metadata self)) g in
      Ok (fold_left
            (fun g _val =>
               add (cur, RDFS_domain, URIRef (gen_rdf_id cfg _val (prop_namespace_name self))) g)
            (dict_get_default "Domain" [] (prop_metadata self)) g)
  end.

End SpecProperty.

(** ** class SpecVocab *)

Module SpecVocab.

Definition logger : string := "SpecVocab".

Definition extract_metadata (cfg : Config) (self : SpecVocab_obj)
    (mdata_list : list NameValues) (r : logging.Root) : SpecVocab_obj * logging.Root :=
  let '(metadata, r) :=
    extract_metadata_of cfg logger (voc_namespace_name self) (voc_name self)
      (voc_metadata self) mdata_list r in
  ({| voc_namespace_name := voc_namespace_name self; voc_name := voc_name self;
      voc_summary := voc_summary self; voc_description := voc_description self;
      voc_metadata := metadata; voc_entries := voc_entries self |}, r).

Fixpoint entries_loop (self_name : string) (entry_list : list EntryLine)
    (entries : dict string) (r : logging.Root) : dict string * logging.Root :=
  match entry_list with
  | [] => (entries, r)
  | entry :: rest =>
      let _key := en_name entry in
      let _value := en_value entry in
      let r' :=
        if dict_mem _key entries then
          logging.error logger (self_name +:+ ": Entry '" +:+ _key +:+ "' already exists") r
        else r in
      entries_loop self_name rest (dict_set _key _value entries) r'
  end.

Definition extract_entries (self : SpecVocab_obj) (entry_list : list EntryLine)
    (r : logging.Root) : SpecVocab_obj * logging.Root :=
  let '(entries, r) := entries_loop (voc_name self) entry_list (voc_entries self) r in
  ({| voc_namespace_name := voc_namespace_name self; voc_name := voc_name self;
      voc_summary := voc_summary self; voc_description := voc_description self;
      voc_metadata := voc_metadata self; voc_entries := entries |}, r).

(** [SpecVocab(spec, namespace_name, name, summary, description, metadata, entries)] *)
Definition __init__ (cfg : Config) (namespace_name name summary description : string)
    (metadata : list NameValues) (entries : list EntryLine) (r : logging.Root)
    : SpecVocab_obj * logging.Root :=
  let self :=
    {| voc_namespace_name := namespace_name; voc_name := name; voc_summary := summary;
       voc_description := description; voc_metadata := []; voc_entries := [] |} in
  let '(self, r) := extract_metadata cfg self metadata r in
  extract_entries self entries r.

Definition dump_md (cfg : Config) (self : SpecVocab_obj) (args : Args) (w : World) : World :=
  let fname :=
    path_join (out args) [voc_namespace_name self; "Vocabularies"; voc_name self +:+ ".md"] in
  write_file fname
    (md_top cfg (voc_name self) (voc_summary self) (voc_description self) (voc_metadata self)
     +:+ "## Entries" +:+ nl +:+ nl
     +:+ String.concat ""
           (map (fun nv => "- " +:+ nv.1 +:+ ": " +:+ nv.2 +:+ nl) (voc_entries self)))
    w.

Definition _gen_rdf (self : SpecVocab_obj) (g : Graph) : outcome Graph :=
  match dict_get "id" (voc_metadata self) with
  | None => Raise KeyError
  | Some [] => Raise IndexError
  | Some (id :: _) => Ok (add (URIRef id, RDF_type, OWL "Class") g)
  end.

End SpecVocab.

(** ** class Spec *)

Module Spec.

Definition logger : string := "Spec".

(** [Spec(spec_dir)] *)
Definition __init__ (spec_dir : string) : Spec_obj :=
  {| spec_dir := spec_dir; namespaces := []; dataprop_refs := [] |}.

(** One of the three loops of [add_namespace], with the message of its
    error. *)
Fixpoint register_loop {A : Type} (message : string) (name_of : A -> string)
    (objs : list A) (d : dict A) (r : logging.Root) : dict A * logging.Root :=
  match objs with
  | [] => (d, r)
  | obj :: rest =>
      let r' := if dict_mem (name_of obj) d then logging.error logger message r else r in
      register_loop message name_of rest (dict_set (name_of obj) obj d) r'
  end.

(** The three messages are plain literals in the source, braces included. *)
Definition duplicate_class : string := "Duplicate `Class` object found: '{name}:{_class.name}'".
Definition duplicate_prop : string := "Duplicate `Property` object found: '{name}:{_prop.name}'".
Definition duplicate_vocab : string := "Duplicate `Vocab` object found: '{name}:{_vocab.name}'".

Definition add_namespace (self : Spec_obj) (name : string) (classes : list SpecClass_obj)
    (properties : list SpecProperty_obj) (vocabs : list SpecVocab_obj) (r : logging.Root)
    : Spec_obj * logging.Root :=
  let '(class_dict, r) := register_loop duplicate_class cls_name classes [] r in
  let '(props_dict, r) := register_loop duplicate_prop prop_name properties [] r in
  let '(vocabs_dict, r) := register_loop duplicate_vocab voc_name vocabs [] r in
  let namespace_el :=
    {| ns_name := name; ns_classes := class_dict; ns_properties := props_dict;
       ns_vocabs := vocabs_dict |} in
  let r :=
    if dict_mem name (namespaces self) then
      logging.error logger ("Namespace with name: " +:+ name +:+ " already exists") r
    else r in
  ({| spec_dir := spec_dir self; namespaces := dict_set name namespace_el (namespaces self);
      dataprop_refs := dataprop_refs self |}, r).

Definition dump_md_namespace (cfg : Config) (self : Spec_obj) (args : Args)
    (w : World) (namespace : Namespace_el) : World :=
  let w :=
    fold_left (fun w class_obj => SpecClass.dump_md cfg class_obj args w)
      (dict_values (ns_classes namespace)) w in
  let w :=
    fold_left (fun w prop_obj => SpecProperty.dump_md cfg self prop_obj args w)
      (dict_values (ns_properties namespace)) w in
  fold_left (fun w vocab_obj => SpecVocab.dump_md cfg vocab_obj args w)
    (dict_values (ns_vocabs namespace)) w.

Definition dump_md (cfg : Config) (self : Spec_obj) (args : Args) (w : World) : World :=
  (* if we have encounter error then terminate *)
  if isError (root w) then
    set_root (logging.warning logger "Error parsing the spec. Aborting the dump_md..." (root w)) w
  else fold_left (dump_md_namespace cfg self args) (dict_values (namespaces self)) w.

(** [for obj in objs: obj._gen_rdf(g)]: the first exception ends the walk. *)
Fixpoint gen_each {A : Type} (gen : A -> Graph -> outcome Graph) (objs : list A) (g : Graph)
    : outcome Graph :=
  match objs with
  | [] => Ok g
  | obj :: rest =>
      match gen obj g with
      | Ok g' => gen_each gen rest g'
      | Raise e => Raise e
      end
  end.

Definition gen_rdf_namespace (cfg : Config) (_namespace : Namespace_el) (g : Graph)
    : outcome Graph :=
  match gen_each (SpecClass._gen_rdf cfg) (dict_values (ns_classes _namespace)) g with
  | Raise e => Raise e
  | Ok g =>
      match gen_each (SpecProperty._gen_rdf cfg) (dict_values (ns_properties _namespace)) g with
      | Raise e => Raise e
      | Ok g => gen_each SpecVocab._gen_rdf (dict_values (ns_vocabs _namespace)) g
      end
  end.

Section Serializer.

(** [g.serialize(format="turtle")], rdflib's own: the text handed to
    [f.write], or the exception the serializer raises (it refuses a URI with a
    character that no URI has).  The file is opened before the graph is
    serialized, so an exception leaves it empty.  [self.rdf_dict], which
    [gen_rdf] sets and nothing reads, is left out. *)
Variable serialize : Graph -> outcome string.

Definition gen_rdf (cfg : Config) (self : Spec_obj) (args : Args) (w : World)
    : outcome unit * World :=
  let g : Graph := ∅ in
  (* add triples starting from each namespaces *)
  match gen_each (gen_rdf_namespace cfg) (dict_values (namespaces self)) g with
  | Raise e => (Raise e, w)
  | Ok g =>
      (* if we have encounter error then terminate *)
      if isError (root w) then
        (Ok tt,
         set_root
           (logging.warning logger "Error parsing the spec. Aborting the gen_rdf..." (root w)) w)
      else
        let fname := path_join (out args) ["tst.ttl"] in
        match serialize g with
        | Ok text => (Ok tt, write_file fname text w)
        | Raise e => (Raise e, write_file fname "" w)
        end
  end.

End Serializer.

End Spec.

(** ** Vocabulary of the statements *)

(** The last element of [objs] whose name is [n]. *)
Fixpoint last_named {A : Type} (name_of : A -> string) (n : string) (objs : list A)
    : option A :=
  match objs with
  | [] => None
  | obj :: rest =>
      match last_named name_of n rest with
      | Some found => Some found
      | None => if String.eqb (name_of obj) n then Some obj else None
      end
  end.

(** How many elements of [objs] have the name [n]. *)
Fixpoint count_named {A : Type} (name_of : A -> string) (n : string) (objs : list A) : nat :=
  match objs with
  | [] => O
  | obj :: rest =>
      ((if String.eqb (name_of obj) n then 1 else 0) + count_named name_of n rest)%nat
  end.

(** The loops that fill a dictionary and report the keys met twice have one
    shape: [metadata_loop], [SpecVocab.entries_loop] and [Spec.register_loop]
    are instances of it. *)
Fixpoint fill_loop {A V : Type} (key : A -> string) (val : A -> V) (logger : string)
    (message : string -> string) (items : list A) (d : dict V) (r : logging.Root)
    : dict V * logging.Root :=
  match items with
  | [] => (d, r)
  | item :: rest =>
      let r' :=
        if dict_mem (key item) d then logging.error logger (message (key item)) r else r in
      fill_loop key val logger message rest (dict_set (key item) (val item) d) r'
  end.

(** An ERROR record of [logger] with the message [m]. *)
Definition error_record (logger m : string) : logging.LogRecord :=
  {| logging.name := logger; logging.levelno := logging.ERROR; logging.msg := m |}.

Definition warning_record (logger m : string) : logging.LogRecord :=
  {| logging.name := logger; logging.levelno := logging.WARNING; logging.msg := m |}.

(** A run issues records one after the other. *)
Definition issue (r : logging.Root) (rec : logging.LogRecord) : logging.Root :=
  logging.log (logging.name rec) (logging.levelno rec) (logging.msg rec) r.

Definition issue_all (recs : list logging.LogRecord) (r : logging.Root) : logging.Root :=
  fold_left issue recs r.

(** Whether a record of level [lvl] gets as far as the first
    [ErrorFoundFilter] of a filter list. *)
Fixpoint reaches_ErrorFoundFilter (lvl : Z) (fs : list logging.Filter) : bool :=
  match fs with
  | [] => false
  | ErrorFoundFilter _ :: _ => true
  | logging.OtherFilter passes :: fs' => passes lvl && reaches_ErrorFoundFilter lvl fs'
  end.

Fixpoint handlers_listen (lvl : Z) (hs : list logging.Handler) : bool :=
  match hs with
  | [] => false
  | h :: hs' =>
      match first_ErrorFoundFilter (logging.filters h) with
      | Some _ =>
          (logging.level h <=? lvl) && reaches_ErrorFoundFilter lvl (logging.filters h)
      | None => handlers_listen lvl hs'
      end
  end.

(** The filter that [isError] reads is installed and sees ERROR records. *)
Definition sink_listens (r : logging.Root) : bool :=
  (logging.root_level r <=? logging.ERROR) && handlers_listen logging.ERROR (logging.handlers r).

Fixpoint has_ErrorFoundFilter (hs : list logging.Handler) : bool :=
  match hs with
  | [] => false
  | h :: hs' =>
      match first_ErrorFoundFilter (logging.filters h) with
      | Some _ => true
      | None => has_ErrorFoundFilter hs'
      end
  end.

(** [<prefix><namespace>#<name>] *)
Definition generated_id (cfg : Config) (namespace_name name : string) : string :=
  id_metadata_prefix cfg +:+ namespace_name +:+ "#" +:+ name.

Definition metadata_message (self_name k : string) : string :=
  self_name +:+ ": Metadata key '" +:+ k +:+ "' already exists".

Definition entry_message (self_name k : string) : string :=
  self_name +:+ ": Entry '" +:+ k +:+ "' already exists".

(** [r'] is [r] after some more records. *)
Definition runs_on (r r' : logging.Root) : Prop :=
  exists recs : list logging.LogRecord, r' = issue_all recs r.


(** Between [r] and [r'] the logger [logger] issued the ERROR message [m],
    and a listening sink has taken it. *)
Definition reported (logger m : string) (r r' : logging.Root) : Prop :=
  error_record logger m ∈ logging.issued r'
  /\ (sink_listens r = true -> isError r' = true).

(** The entities of a registry. *)
Definition entity_count (self : Spec_obj) : nat :=
  foldr
    (fun namespace n =>
       (length (ns_classes namespace) + length (ns_properties namespace)
        + length (ns_vocabs namespace) + n)%nat)
    O (dict_values (namespaces self)).

(** The walk of [gen_rdf] over a registry, from the empty graph. *)
Definition triple_walk (cfg : Config) (self : Spec_obj) : outcome Graph :=
  Spec.gen_each (Spec.gen_rdf_namespace cfg) (dict_values (namespaces self)) ∅.

Definition abort_dump_md : string := "Error parsing the spec. Aborting the dump_md...".
Definition abort_gen_rdf : string := "Error parsing the spec. Aborting the gen_rdf...".

(** The elements of [l], each once, in the order of their first
    occurrence. *)
Definition first_seen (l : list string) : list string :=
  reverse (remove_dups (reverse l)).

(** A usage name comes a second time while no block so far, the second one
    included, has an attribute line. *)
Definition unbound_duplicate (props : list PropUsage) : Prop :=
  exists (before : list PropUsage) (again : PropUsage) (after : list PropUsage),
    props = before ++ again :: after
    /\ (forall blk, blk ∈ before ++ [again] -> pu_values blk = [])
    /\ pu_name again ∈ map pu_name before.

(** The attributes a usage block leaves: those of its lines, the last line of
    a name winning, and the defaults for the names it lacks. *)
Definition usage_attribute (cfg : Config) (blk : PropUsage) (a : string)
    : option (list string) :=
  match last_named nv_name a (pu_values blk) with
  | Some line => Some (nv_values line)
  | None => dict_get a (property_defaults cfg)
  end.

(** A step on graphs that adds the same triples to any graph, or raises the
    same exception on any graph. *)
Definition additive (f : Graph -> outcome Graph) : Prop :=
  (exists T : Graph, forall g, f g = Ok (g ∪ T)) \/ (exists e, forall g, f g = Raise e).

(** The pages of a registry, in the order [dump_md] writes them. *)
Definition class_page (args : Args) (c : SpecClass_obj) : string :=
  path_join (out args) [cls_namespace_name c; "Classes"; cls_name c +:+ ".md"].
Definition property_page (args : Args) (p : SpecProperty_obj) : string :=
  path_join (out args) [prop_namespace_name p; "Properties"; prop_name p +:+ ".md"].
Definition vocab_page (args : Args) (v : SpecVocab_obj) : string :=
  path_join (out args) [voc_namespace_name v; "Vocabularies"; voc_name v +:+ ".md"].

Definition namespace_pages (args : Args) (namespace : Namespace_el) : list string :=
  map (class_page args) (dict_values (ns_classes namespace))
  ++ map (property_page args) (dict_values (ns_properties namespace))
  ++ map (vocab_page args) (dict_values (ns_vocabs namespace)).

Definition registry_pages (args : Args) (self : Spec_obj) : list string :=
  concat (map (namespace_pages args) (dict_values (namespaces self))).

(** The [id] entry of a metadata block has a first value. *)
Definition has_id (metadata : dict (list string)) : Prop :=
  exists id, head (dict_get_default "id" [] metadata) = Some id.

(** ** Sample inputs *)

(** A root logger at its default level with one handler that carries a new
    [ErrorFoundFilter], and one with no handler at all. *)
Definition example_root : logging.Root :=
  {| logging.root_level := logging.WARNING;
     logging.handlers := [{| logging.level := 0; logging.filters := [ErrorFoundFilter_new] |}];
     logging.issued := [] |}.

Definition bare_root : logging.Root :=
  {| logging.root_level := logging.WARNING; logging.handlers := []; logging.issued := [] |}.

Definition status_twice : list NameValues :=
  [{| nv_name := "Status"; nv_values := ["Draft"] |};
   {| nv_name := "Status"; nv_values := ["Final"] |}].

Definition id_declared : list NameValues := [{| nv_name := "id"; nv_values := ["urn:x"] |}].

Definition id_declared_empty : list NameValues := [{| nv_name := "id"; nv_values := [] |}].

(** The objects that a declaration named [id] leaves behind. *)
Definition widget_with_id (values : list string) : SpecClass_obj :=
  {| cls_namespace_name := "core"; cls_name := "Widget"; cls_summary := "";
     cls_description := ""; cls_metadata := [("id", values); ("Status", ["Stable"])];
     cls_properties := [] |}.

Definition hasPart_with_id (values : list string) : SpecProperty_obj :=
  {| prop_namespace_name := "core"; prop_name := "hasPart"; prop_summary := "";
     prop_description := ""; prop_metadata := [("id", values); ("Status", ["Stable"])] |}.

Definition subclass_of_base_thing : list NameValues :=
  [{| nv_name := "SubclassOf"; nv_values := ["base:Thing"] |}].

Definition domain_and_range : list NameValues :=
  [{| nv_name := "Domain"; nv_values := ["Widget"] |};
   {| nv_name := "Range"; nv_values := ["core:Gadget"] |}].

Definition low_twice : list EntryLine :=
  [{| en_name := "low"; en_value := "1" |}; {| en_name := "low"; en_value := "2" |}].

Definition example_config : Config :=
  {| id_metadata_prefix := "https://example.org/";
     metadata_defaults := [("Status", ["Stable"])];
     property_defaults := [("minCount", ["0"]); ("maxCount", ["*"])];
     version := "0.1" |}.

(** Two classes of namespace [core] that use the property [label], as their
    constructors leave them, and the registry after each. *)
Definition label_usage : list PropUsage :=
  [{| pu_name := "label";
      pu_values := [{| nv_name := "type"; nv_values := ["xsd:string"] |}] |}].

Definition class_using_label (name : string) : SpecClass_obj :=
  {| cls_namespace_name := "core"; cls_name := name; cls_summary := ""; cls_description := "";
     cls_metadata := [("id", ["https://example.org/core#" +:+ name]); ("Status", ["Stable"])];
     cls_properties :=
       [("label", [("type", ["xsd:string"]); ("minCount", ["0"]); ("maxCount", ["*"])])] |}.

Definition index_of_label (users : list string) : Spec_obj :=
  {| spec_dir := ""; namespaces := []; dataprop_refs := [("label", users)] |}.

Definition sample_args : Args := {| out := "out"; table := false; refs := false |}.

(** A run: the class [Widget] of namespace [core] is constructed with the
    given metadata and registered, then both artifacts are asked for.  The
    result lists the levels of the records issued by then, the names of the
    pages [dump_md] wrote, how [gen_rdf] ended, the files it wrote, and the
    messages issued once it ended. *)
Definition sample_run (metadata : list NameValues) (r : logging.Root)
    : option (list Z * list string * outcome unit * list (string * string) * list string) :=
  match SpecClass.__init__ example_config (Spec.__init__ "") "core" "Widget" "" ""
          metadata [] r with
  | (Ok (c, spec), r1) =>
      let '(spec, r2) := Spec.add_namespace spec "core" [c] [] [] r1 in
      let w := {| root := r2; written := [] |} in
      let gen := Spec.gen_rdf (fun _ => Ok "ttl") example_config spec sample_args w in
      Some (map logging.levelno (logging.issued r2),
            map fst (written (Spec.dump_md example_config spec sample_args w)),
            gen.1, written gen.2, map logging.msg (logging.issued (root gen.2)))
  | (Raise _, _) => None
  end.

(** The class [Widget] of namespace [core] with [SubclassOf: base:Thing]. *)
Definition widget_subclass : SpecClass_obj :=
  {| cls_namespace_name := "core"; cls_name := "Widget"; cls_summary := "";
     cls_description := "";
     cls_metadata :=
       [("id", ["https://example.org/core#Widget"]);
        ("SubclassOf", ["base:Thing"]); ("Status", ["Stable"])];
     cls_properties := [] |}.

(** The registry that holds the class [Widget] alone, in namespace [core]. *)
Definition registry_with_widget : Spec_obj :=
  (Spec.add_namespace (Spec.__init__ "") "core" [widget_subclass] [] [] example_root).1.

(** * Properties *)

(** ** Strings and the resolver *)

Lemma append_cons (c : ascii) (s t : string) : String c s +:+ t = String c (s +:+ t).
Proof. reflexivity. Qed.

Lemma append_nil (t : string) : EmptyString +:+ t = t.
Proof. reflexivity. Qed.

Lemma re_split_colon_length (s : string) :
  length (re_split_colon s) = S (count_colons s).
Proof.
  induction s as [|c s IH]; [reflexivity|].
  cbn [re_split_colon count_colons].
  destruct (Ascii.eqb c colon).
  - cbn [length]. rewrite IH. reflexivity.
  - destruct (re_split_colon s) as [|seg segs]; [discriminate IH|].
    cbn [length] in *. rewrite IH. reflexivity.
Qed.

Lemma re_split_colon_plain (s : string) :
  count_colons s = 0%nat -> re_split_colon s = [s].
Proof.
  induction s as [|c s IH]; [reflexivity|].
  cbn [re_split_colon count_colons].
  destruct (Ascii.eqb c colon); [discriminate|].
  intros H. rewrite (IH H). reflexivity.
Qed.

Lemma re_split_colon_first (a b : string) :
  count_colons a = 0%nat ->
  re_split_colon (a +:+ ":" +:+ b) = a :: re_split_colon b.
Proof.
  induction a as [|c a IH].
  - intros _. reflexivity.
  - cbn [count_colons]. rewrite append_cons. cbn [re_split_colon].
    destruct (Ascii.eqb c colon); [discriminate|].
    intros H. rewrite (IH H). reflexivity.
Qed.

Lemma count_colons_app (a b : string) :
  count_colons (a +:+ b) = (count_colons a + count_colons b)%nat.
Proof.
  induction a as [|c a IH]; [reflexivity|].
  rewrite append_cons. cbn [count_colons]. rewrite IH. lia.
Qed.

(** A string with a colon splits at its first one. *)
Lemma first_colon (s : string) :
  (1 <= count_colons s)%nat ->
  exists a b, s = a +:+ ":" +:+ b /\ count_colons a = 0%nat
              /\ count_colons s = S (count_colons b).
Proof.
  induction s as [|c s IH]; cbn [count_colons]; [lia|].
  destruct (Ascii.eqb c colon) eqn:Hc.
  - intros _. apply Ascii.eqb_eq in Hc. subst c.
    exists EmptyString, s. repeat split.
  - intros H. destruct (IH H) as (a & b & -> & Ha & Hb).
    exists (String c a), b. rewrite append_cons. cbn [count_colons].
    rewrite Hc. repeat split; assumption.
Qed.

(** C1.  The resolver returns a reference with two or more colons unchanged,
    turns [a:b] into [<prefix>a#b] whatever the context namespace, and
    resolves a reference without a colon against the context namespace.  A
    reference has exactly one colon precisely when it reads [a:b] with no
    colon in [a] or [b]. *)
Theorem gen_rdf_id_cases (cfg : Config) (r N : string) :
  ((2 <= count_colons r)%nat -> gen_rdf_id cfg r N = r)
  /\ (forall a b : string,
        count_colons a = 0%nat -> count_colons b = 0%nat -> r = a +:+ ":" +:+ b ->
        count_colons r = 1%nat
        /\ forall N' : string,
             gen_rdf_id cfg r N' = id_metadata_prefix cfg +:+ a +:+ "#" +:+ b)
  /\ (count_colons r = 1%nat ->
      exists a b : string,
        r = a +:+ ":" +:+ b /\ count_colons a = 0%nat /\ count_colons b = 0%nat)
  /\ (count_colons r = 0%nat ->
      gen_rdf_id cfg r N = id_metadata_prefix cfg +:+ N +:+ "#" +:+ r).
Proof.
  unfold gen_rdf_id. repeat split.
  - intros H. rewrite re_split_colon_length.
    destruct (Nat.ltb_spec 2 (S (count_colons r))); [reflexivity|lia].
  - subst r. rewrite !count_colons_app. cbn. lia.
  - intros N'. subst r. rewrite (re_split_colon_first a b) by assumption.
    rewrite (re_split_colon_plain b) by assumption. reflexivity.
  - intros H. destruct (first_colon r) as (a & b & Hr & Ha & Hb); [lia|].
    exists a, b. repeat split; [assumption|assumption|lia].
  - intros H. rewrite (re_split_colon_plain r H). reflexivity.
Qed.

Lemma gen_rdf_id_cases_witness :
  gen_rdf_id example_config "https://example.org/base#Thing:x" "core"
    = "https://example.org/base#Thing:x"
  /\ gen_rdf_id example_config "base:Thing" "core" = "https://example.org/base#Thing"
  /\ gen_rdf_id example_config "Thing" "core" = "https://example.org/core#Thing".
Proof.
  split; [|split].
  - apply (gen_rdf_id_cases example_config "https://example.org/base#Thing:x" "core").
    vm_compute. lia.
  - apply (proj1 (proj2 (gen_rdf_id_cases example_config "base:Thing" "core"))
             "base" "Thing"); reflexivity.
  - apply (gen_rdf_id_cases example_config "Thing" "core"). reflexivity.
Defined.

(** ** Dictionaries *)

Section DictFacts.
Context {V : Type}.
Implicit Types (d : dict V) (k : string) (v : V).

Lemma dict_get_set k' k v d :
  dict_get k' (dict_set k v d) = if String.eqb k' k then Some v else dict_get k' d.
Proof.
  induction d as [|[k0 v0] d IH]; cbn [dict_set dict_get].
  - reflexivity.
  - destruct (String.eqb_spec k k0) as [->|Hk]; cbn [dict_get].
    + destruct (String.eqb k' k0); reflexivity.
    + rewrite IH. destruct (String.eqb_spec k' k0) as [->|Hk'].
      * destruct (String.eqb_spec k0 k); [congruence|reflexivity].
      * reflexivity.
Qed.

Lemma dict_get_set_eq k v d : dict_get k (dict_set k v d) = Some v.
Proof. rewrite dict_get_set, String.eqb_refl. reflexivity. Qed.

Lemma dict_get_set_ne k' k v d : k' <> k -> dict_get k' (dict_set k v d) = dict_get k' d.
Proof.
  intros H. rewrite dict_get_set. destruct (String.eqb_spec k' k); [contradiction|reflexivity].
Qed.

Lemma dict_mem_set k' k v d :
  dict_mem k' (dict_set k v d) = (String.eqb k' k || dict_mem k' d)%bool.
Proof. unfold dict_mem. rewrite dict_get_set. destruct (String.eqb k' k); reflexivity. Qed.

Lemma dict_mem_get k d : dict_mem k d = true <-> exists v, dict_get k d = Some v.
Proof.
  unfold dict_mem. destruct (dict_get k d) as [v|].
  - split; [eauto|reflexivity].
  - split; [discriminate|intros [v Hv]; discriminate].
Qed.

(** [union_dict] reads the target first and the defaults second. *)
Lemma dict_get_union k d1 d2 :
  dict_get k (union_dict d1 d2)
  = match dict_get k d1 with Some v => Some v | None => dict_get k d2 end.
Proof.
  unfold union_dict. revert d1.
  induction d2 as [|[k2 v2] d2 IH]; intros d1; cbn [fold_left dict_get fst snd].
  - destruct (dict_get k d1); reflexivity.
  - rewrite IH. unfold dict_mem.
    destruct (dict_get k2 d1) as [w|] eqn:H2; cbn [negb].
    + destruct (String.eqb_spec k k2) as [->|Hk]; [rewrite H2|]; reflexivity.
    + rewrite dict_get_set. destruct (String.eqb_spec k k2) as [->|Hk].
      * rewrite H2. reflexivity.
      * reflexivity.
Qed.

End DictFacts.

(** ** The root logger and [isError] *)

Lemma run_filters_first (lvl : Z) (fs : list logging.Filter) :
  first_ErrorFoundFilter (logging.run_filters lvl fs)
  = match first_ErrorFoundFilter fs with
    | None => None
    | Some w =>
        Some (if reaches_ErrorFoundFilter lvl fs then (if w <? lvl then lvl else w) else w)
    end.
Proof.
  induction fs as [|[w|passes] fs IH]; cbn [logging.run_filters first_ErrorFoundFilter
    reaches_ErrorFoundFilter]; try reflexivity.
  destruct (passes lvl); cbn [andb]; [exact IH|].
  destruct (first_ErrorFoundFilter fs); reflexivity.
Qed.

Lemma run_filters_reaches (lvl lvl' : Z) (fs : list logging.Filter) :
  reaches_ErrorFoundFilter lvl' (logging.run_filters lvl fs) = reaches_ErrorFoundFilter lvl' fs.
Proof.
  induction fs as [|[w|passes] fs IH]; cbn [logging.run_filters reaches_ErrorFoundFilter];
    try reflexivity.
  destruct (passes lvl); [rewrite IH|]; reflexivity.
Qed.

Lemma call_handler_first (lvl : Z) (h : logging.Handler) :
  first_ErrorFoundFilter (logging.filters (logging.call_handler lvl h))
  = match first_ErrorFoundFilter (logging.filters h) with
    | None => None
    | Some w =>
        Some (if (logging.level h <=? lvl) && reaches_ErrorFoundFilter lvl (logging.filters h)
              then (if w <? lvl then lvl else w) else w)
    end.
Proof.
  unfold logging.call_handler. destruct (logging.level h <=? lvl); cbn [logging.filters andb].
  - apply run_filters_first.
  - destruct (first_ErrorFoundFilter (logging.filters h)); reflexivity.
Qed.

Lemma call_handler_level (lvl : Z) (h : logging.Handler) :
  logging.level (logging.call_handler lvl h) = logging.level h.
Proof. unfold logging.call_handler. destruct (logging.level h <=? lvl); reflexivity. Qed.

Lemma call_handler_reaches (lvl lvl' : Z) (h : logging.Handler) :
  reaches_ErrorFoundFilter lvl' (logging.filters (logging.call_handler lvl h))
  = reaches_ErrorFoundFilter lvl' (logging.filters h).
Proof.
  unfold logging.call_handler. destruct (logging.level h <=? lvl); cbn [logging.filters].
  - apply run_filters_reaches.
  - reflexivity.
Qed.

(** Once [isError] holds it holds for the rest of the run. *)
Lemma isError_handlers_mono (lvl : Z) (hs : list logging.Handler) :
  isError_handlers hs = true -> isError_handlers (map (logging.call_handler lvl) hs) = true.
Proof.
  induction hs as [|h hs IH]; cbn [map isError_handlers]; [discriminate|].
  rewrite call_handler_first.
  destruct (first_ErrorFoundFilter (logging.filters h)) as [w|]; [|exact IH].
  intros Hw. apply Z.leb_le in Hw. apply Z.leb_le.
  destruct (_ && _); [|assumption]. destruct (Z.ltb_spec w lvl); lia.
Qed.

Lemma isError_log (nm m : string) (lvl : Z) (r : logging.Root) :
  isError r = true -> isError (logging.log nm lvl m r) = true.
Proof.
  unfold isError, logging.log. cbn [logging.handlers]. intros H.
  destruct (logging.root_level r <=? lvl); [|assumption].
  apply isError_handlers_mono, H.
Qed.

Lemma isError_handlers_listen (hs : list logging.Handler) :
  handlers_listen logging.ERROR hs = true ->
  isError_handlers (map (logging.call_handler logging.ERROR) hs) = true.
Proof.
  induction hs as [|h hs IH]; cbn [map isError_handlers handlers_listen]; [discriminate|].
  rewrite call_handler_first.
  destruct (first_ErrorFoundFilter (logging.filters h)) as [w|]; [|exact IH].
  intros ->. apply Z.leb_le. destruct (Z.ltb_spec w logging.ERROR); lia.
Qed.

(** An ERROR record reaches a listening sink. *)
Lemma isError_error (nm m : string) (r : logging.Root) :
  sink_listens r = true -> isError (logging.error nm m r) = true.
Proof.
  unfold sink_listens, isError, logging.error, logging.log. cbn [logging.handlers].
  intros [-> H]%andb_true_iff. apply isError_handlers_listen, H.
Qed.

Lemma handlers_listen_log (lvl lvl' : Z) (hs : list logging.Handler) :
  handlers_listen lvl' (map (logging.call_handler lvl) hs) = handlers_listen lvl' hs.
Proof.
  induction hs as [|h hs IH]; cbn [map handlers_listen]; [reflexivity|].
  rewrite call_handler_first, call_handler_level, call_handler_reaches, IH.
  destruct (first_ErrorFoundFilter (logging.filters h)); reflexivity.
Qed.

Lemma sink_listens_log (nm m : string) (lvl : Z) (r : logging.Root) :
  sink_listens (logging.log nm lvl m r) = sink_listens r.
Proof.
  unfold sink_listens, logging.log. cbn [logging.handlers logging.root_level].
  destruct (logging.root_level r <=? lvl); [|reflexivity].
  rewrite handlers_listen_log. reflexivity.
Qed.

Lemma has_ErrorFoundFilter_log (nm m : string) (lvl : Z) (r : logging.Root) :
  has_ErrorFoundFilter (logging.handlers (logging.log nm lvl m r))
  = has_ErrorFoundFilter (logging.handlers r).
Proof.
  unfold logging.log. cbn [logging.handlers].
  destruct (logging.root_level r <=? lvl); [|reflexivity].
  induction (logging.handlers r) as [|h hs IH]; cbn [map has_ErrorFoundFilter]; [reflexivity|].
  rewrite call_handler_first, IH.
  destruct (first_ErrorFoundFilter (logging.filters h)); reflexivity.
Qed.

Lemma isError_without_filter (r : logging.Root) :
  has_ErrorFoundFilter (logging.handlers r) = false -> isError r = false.
Proof.
  unfold isError. induction (logging.handlers r) as [|h hs IH];
    cbn [has_ErrorFoundFilter isError_handlers]; [reflexivity|].
  destruct (first_ErrorFoundFilter (logging.filters h)); [discriminate|exact IH].
Qed.

Lemma issued_log (nm m : string) (lvl : Z) (r : logging.Root) :
  logging.issued (logging.log nm lvl m r)
  = logging.issued r
      ++ [{| logging.name := nm; logging.levelno := lvl; logging.msg := m |}].
Proof. reflexivity. Qed.

Lemma issue_all_app (recs1 recs2 : list logging.LogRecord) (r : logging.Root) :
  issue_all (recs1 ++ recs2) r = issue_all recs2 (issue_all recs1 r).
Proof. unfold issue_all. apply fold_left_app. Qed.

Lemma issued_issue_all (recs : list logging.LogRecord) (r : logging.Root) :
  logging.issued (issue_all recs r) = logging.issued r ++ recs.
Proof.
  revert r. induction recs as [|[nm lvl m] recs IH]; intros r; cbn [issue_all fold_left].
  - rewrite app_nil_r. reflexivity.
  - fold (issue_all recs). rewrite IH. unfold issue. cbn [logging.name logging.levelno logging.msg].
    rewrite issued_log, <- app_assoc. reflexivity.
Qed.

Lemma isError_issue_all (recs : list logging.LogRecord) (r : logging.Root) :
  isError r = true -> isError (issue_all recs r) = true.
Proof.
  revert r. induction recs as [|rec recs IH]; intros r H; [exact H|].
  cbn [issue_all fold_left]. apply IH, isError_log, H.
Qed.

Lemma sink_listens_issue_all (recs : list logging.LogRecord) (r : logging.Root) :
  sink_listens (issue_all recs r) = sink_listens r.
Proof.
  revert r. induction recs as [|rec recs IH]; intros r; [reflexivity|].
  cbn [issue_all fold_left]. fold (issue_all recs). rewrite IH. apply sink_listens_log.
Qed.

Lemma has_ErrorFoundFilter_issue_all (recs : list logging.LogRecord) (r : logging.Root) :
  has_ErrorFoundFilter (logging.handlers (issue_all recs r))
  = has_ErrorFoundFilter (logging.handlers r).
Proof.
  revert r. induction recs as [|rec recs IH]; intros r; [reflexivity|].
  cbn [issue_all fold_left]. fold (issue_all recs). rewrite IH. apply has_ErrorFoundFilter_log.
Qed.

(** A listening sink that is offered an ERROR record anywhere in a run ends
    the run with [isError] true. *)
Lemma isError_tainted (recs : list logging.LogRecord) (e : logging.LogRecord)
    (r : logging.Root) :
  sink_listens r = true -> logging.levelno e = logging.ERROR -> e ∈ recs ->
  isError (issue_all recs r) = true.
Proof.
  intros Hs He Hin. apply list_elem_of_split in Hin as (recs1 & recs2 & ->).
  rewrite issue_all_app. cbn [issue_all fold_left]. fold (issue_all recs2).
  apply isError_issue_all. unfold issue. rewrite He.
  apply isError_error. rewrite sink_listens_issue_all. exact Hs.
Qed.

(** ** The loops that fill a dictionary *)

Lemma error_is_issue (logger m : string) (r : logging.Root) :
  logging.error logger m r = issue r (error_record logger m).
Proof. reflexivity. Qed.

Section FillLoop.
Context {A V : Type} (key : A -> string) (val : A -> V).
Context (logger : string) (message : string -> string).

(** Every key met holds the value of its last item; the other keys are
    untouched. *)
Lemma fill_loop_get (k : string) (items : list A) (d : dict V) (r : logging.Root) :
  dict_get k (fill_loop key val logger message items d r).1
  = match last_named key k items with
    | Some item => Some (val item)
    | None => dict_get k d
    end.
Proof.
  revert d r. induction items as [|item items IH]; intros d r; cbn [fill_loop last_named].
  - reflexivity.
  - rewrite IH. destruct (last_named key k items); [reflexivity|].
    rewrite dict_get_set, (String.eqb_sym k).
    destruct (String.eqb (key item) k); reflexivity.
Qed.

(** The loop issues ERROR records only, one of them for every key that was
    present when an item with it came. *)
Lemma fill_loop_issues (items : list A) (d : dict V) (r : logging.Root) :
  exists recs : list logging.LogRecord,
    (fill_loop key val logger message items d r).2 = issue_all recs r
    /\ (forall rec, rec ∈ recs -> exists k, rec = error_record logger (message k))
    /\ (forall k,
          (dict_mem k d = true /\ (1 <= count_named key k items)%nat)
          \/ (2 <= count_named key k items)%nat ->
          error_record logger (message k) ∈ recs)
    /\ ((forall k, (1 <= count_named key k items)%nat -> dict_mem k d = false)
        -> (forall k, (count_named key k items <= 1)%nat) -> recs = []).
Proof.
  revert d r. induction items as [|item items IH]; intros d r; cbn [fill_loop count_named].
  - exists []. split; [reflexivity|]. split; [intros rec Hrec; inversion Hrec|].
    split; [intros k [[_ H]|H]; lia|reflexivity].
  - destruct (IH (dict_set (key item) (val item) d)
                (if dict_mem (key item) d
                 then logging.error logger (message (key item)) r else r))
      as (recs & Hr & Hall & Hdup & Hnone).
    exists ((if dict_mem (key item) d then [error_record logger (message (key item))] else [])
            ++ recs).
    split; [|split; [|split]].
    + rewrite Hr, issue_all_app. destruct (dict_mem (key item) d); reflexivity.
    + intros rec [Hrec|Hrec]%elem_of_app; [|auto].
      destruct (dict_mem (key item) d); [|inversion Hrec].
      apply list_elem_of_singleton in Hrec. eauto.
    + intros k Hk. apply elem_of_app. revert Hk.
      destruct (String.eqb (key item) k) eqn:E; intros Hk.
      * apply String.eqb_eq in E. subst k.
        destruct (dict_mem (key item) d) eqn:Hm.
        -- left. apply list_elem_of_singleton. reflexivity.
        -- right. apply Hdup. left. rewrite dict_mem_set, String.eqb_refl.
           split; [reflexivity|]. destruct Hk as [[? _]|Hk]; [discriminate|lia].
      * right. apply Hdup. rewrite dict_mem_set, (String.eqb_sym k), E.
        cbn [orb] in *. destruct Hk as [[? ?]|?]; [left; split|right]; lia || assumption.
    + intros Hfresh Honce.
      rewrite (Hfresh (key item)) by (rewrite String.eqb_refl; lia). cbn [app].
      apply Hnone.
      * intros k Hk. rewrite dict_mem_set, (String.eqb_sym k).
        specialize (Honce k). specialize (Hfresh k).
        destruct (String.eqb (key item) k); [lia|].
        cbn [orb]. apply Hfresh. lia.
      * intros k. specialize (Honce k). destruct (String.eqb (key item) k); lia.
Qed.

End FillLoop.

Lemma metadata_loop_fill (logger self_name : string) (mdata_list : list NameValues)
    (metadata : dict (list string)) (r : logging.Root) :
  metadata_loop logger self_name mdata_list metadata r
  = fill_loop nv_name nv_values logger
      (fun k => self_name +:+ ": Metadata key '" +:+ k +:+ "' already exists")
      mdata_list metadata r.
Proof.
  revert metadata r. induction mdata_list as [|m l IH]; intros metadata r; [reflexivity|].
  cbn [metadata_loop fill_loop]. apply IH.
Qed.

Lemma entries_loop_fill (self_name : string) (entry_list : list EntryLine)
    (entries : dict string) (r : logging.Root) :
  SpecVocab.entries_loop self_name entry_list entries r
  = fill_loop en_name en_value SpecVocab.logger
      (fun k => self_name +:+ ": Entry '" +:+ k +:+ "' already exists")
      entry_list entries r.
Proof.
  revert entries r. induction entry_list as [|e l IH]; intros entries r; [reflexivity|].
  cbn [SpecVocab.entries_loop fill_loop]. apply IH.
Qed.

Lemma register_loop_fill {A : Type} (message : string) (name_of : A -> string)
    (objs : list A) (d : dict A) (r : logging.Root) :
  Spec.register_loop message name_of objs d r
  = fill_loop name_of (fun obj => obj) Spec.logger (fun _ => message) objs d r.
Proof.
  revert d r. induction objs as [|o l IH]; intros d r; [reflexivity|].
  cbn [Spec.register_loop fill_loop]. apply IH.
Qed.

(** ** Runs *)

Lemma runs_on_refl (r : logging.Root) : runs_on r r.
Proof. exists []. reflexivity. Qed.

Lemma runs_on_trans (r1 r2 r3 : logging.Root) :
  runs_on r1 r2 -> runs_on r2 r3 -> runs_on r1 r3.
Proof.
  intros [recs1 ->] [recs2 ->]. exists (recs1 ++ recs2). rewrite issue_all_app. reflexivity.
Qed.

Lemma runs_on_issued (r r' : logging.Root) (rec : logging.LogRecord) :
  runs_on r r' -> rec ∈ logging.issued r -> rec ∈ logging.issued r'.
Proof. intros [recs ->] H. rewrite issued_issue_all. apply elem_of_app. left. exact H. Qed.

Lemma runs_on_isError (r r' : logging.Root) :
  runs_on r r' -> isError r = true -> isError r' = true.
Proof. intros [recs ->]. apply isError_issue_all. Qed.

Lemma runs_on_sink_listens (r r' : logging.Root) :
  runs_on r r' -> sink_listens r' = sink_listens r.
Proof. intros [recs ->]. apply sink_listens_issue_all. Qed.

Lemma runs_on_error (logger m : string) (r : logging.Root) :
  runs_on r (logging.error logger m r).
Proof. exists [error_record logger m]. reflexivity. Qed.

(** What a filling loop leaves in the root logger. *)
Lemma fill_loop_runs {A V : Type} (key : A -> string) (val : A -> V) (logger : string)
    (message : string -> string) (items : list A) (d : dict V) (r : logging.Root) :
  let r' := (fill_loop key val logger message items d r).2 in
  runs_on r r'
  /\ (forall k,
        (dict_mem k d = true /\ (1 <= count_named key k items)%nat)
        \/ (2 <= count_named key k items)%nat ->
        error_record logger (message k) ∈ logging.issued r'
        /\ (sink_listens r = true -> isError r' = true)).
Proof.
  cbn zeta.
  destruct (fill_loop_issues key val logger message items d r) as (recs & Hr & _ & Hdup & _).
  split; [exists recs; exact Hr|].
  intros k Hk. specialize (Hdup k Hk). rewrite Hr. split.
  - rewrite issued_issue_all. apply elem_of_app. right. exact Hdup.
  - intros Hs. apply (isError_tainted recs (error_record logger (message k))); auto.
Qed.

(** ** Metadata extraction *)

Section Metadata.
Variable cfg : Config.
Variables logger namespace_name self_name : string.
Variable mdata_list : list NameValues.
Variable r : logging.Root.

Let extracted := extract_metadata_of cfg logger namespace_name self_name [] mdata_list r.

(** A declared key holds the values of its last declaration; [id] holds the
    generated identifier unless it is declared; any other key holds its
    default, if it has one. *)
Lemma extract_metadata_of_get (k : string) :
  dict_get k extracted.1
  = match last_named nv_name k mdata_list with
    | Some line => Some (nv_values line)
    | None =>
        if String.eqb k "id" then Some [generated_id cfg namespace_name self_name]
        else dict_get k (metadata_defaults cfg)
    end.
Proof.
  unfold extracted, extract_metadata_of. rewrite metadata_loop_fill.
  pose proof (fill_loop_get nv_name nv_values logger (metadata_message self_name) k mdata_list
                (dict_set "id" [id_metadata_prefix cfg +:+ namespace_name +:+ "#" +:+ self_name] [])
                r) as Hget.
  unfold metadata_message in Hget.
  destruct (fill_loop _ _ _ _ _ _ _) as [metadata r'].
  cbn [fst snd] in *. rewrite dict_get_union, Hget.
  destruct (last_named nv_name k mdata_list); [reflexivity|].
  cbn [dict_set dict_get]. unfold generated_id.
  destruct (String.eqb k "id"); reflexivity.
Qed.

(** A key declared twice, and [id] declared once, is reported. *)
Lemma extract_metadata_of_runs :
  runs_on r extracted.2
  /\ (forall k,
        (k = "id" /\ (1 <= count_named nv_name k mdata_list)%nat)
        \/ (2 <= count_named nv_name k mdata_list)%nat ->
        error_record logger (metadata_message self_name k) ∈ logging.issued extracted.2
        /\ (sink_listens r = true -> isError extracted.2 = true)).
Proof.
  unfold extracted, extract_metadata_of. rewrite metadata_loop_fill.
  pose proof (fill_loop_runs nv_name nv_values logger (metadata_message self_name) mdata_list
                (dict_set "id" [id_metadata_prefix cfg +:+ namespace_name +:+ "#" +:+ self_name] [])
                r) as [Hruns Hdup].
  unfold metadata_message in *.
  destruct (fill_loop _ _ _ _ _ _ _) as [metadata r'].
  cbn [fst snd] in *. split; [exact Hruns|].
  intros k [[-> Hk]|Hk]; apply Hdup; [left; split; [reflexivity|exact Hk]|right; exact Hk].
Qed.

End Metadata.

(** ** Construction *)




Section Constructors.
Variable cfg : Config.
Variable spec : Spec_obj.
Variables namespace_name name summary description : string.
Variable metadata : list NameValues.
Variable props : list PropUsage.
Variable entries : list EntryLine.
Variable r : logging.Root.

Lemma SpecProperty_init_eq :
  SpecProperty.__init__ cfg namespace_name name summary description metadata r
  = ({| prop_namespace_name := namespace_name; prop_name := name; prop_summary := summary;
        prop_description := description;
        prop_metadata :=
          (extract_metadata_of cfg SpecProperty.logger namespace_name name [] metadata r).1 |},
     (extract_metadata_of cfg SpecProperty.logger namespace_name name [] metadata r).2).
Proof.
  unfold SpecProperty.__init__, SpecProperty.extract_metadata.
  cbn [prop_namespace_name prop_name prop_summary prop_description prop_metadata].
  destruct (extract_metadata_of _ _ _ _ _ _ _). reflexivity.
Qed.

Lemma SpecVocab_init_eq :
  let extracted :=
    extract_metadata_of cfg SpecVocab.logger namespace_name name [] metadata r in
  let filled :=
    fill_loop en_name en_value SpecVocab.logger (entry_message name) entries [] extracted.2 in
  SpecVocab.__init__ cfg namespace_name name summary description metadata entries r
  = ({| voc_namespace_name := namespace_name; voc_name := name; voc_summary := summary;
        voc_description := description; voc_metadata := extracted.1;
        voc_entries := filled.1 |}, filled.2).
Proof.
  cbn zeta. unfold SpecVocab.__init__, SpecVocab.extract_metadata, SpecVocab.extract_entries.
  cbn [voc_namespace_name voc_name voc_summary voc_description voc_metadata voc_entries].
  destruct (extract_metadata_of _ _ _ _ _ _ _) as [m r1].
  cbn [voc_namespace_name voc_name voc_summary voc_description voc_metadata voc_entries fst snd].
  rewrite entries_loop_fill. unfold entry_message.
  destruct (fill_loop _ _ _ _ _ _ _). reflexivity.
Qed.

Lemma SpecClass_init_eq :
  let extracted :=
    extract_metadata_of cfg SpecClass.logger namespace_name name [] metadata r in
  SpecClass.__init__ cfg spec namespace_name name summary description metadata props r
  = match SpecClass.props_loop cfg name props None [] extracted.2 with
    | (Raise e, r') => (Raise e, r')
    | (Ok properties, r') =>
        (Ok ({| cls_namespace_name := namespace_name; cls_name := name;
                cls_summary := summary; cls_description := description;
                cls_metadata := extracted.1; cls_properties := properties |},
             {| spec_dir := spec_dir spec; namespaces := namespaces spec;
                dataprop_refs :=
                  SpecClass.refs_loop (namespace_name +:+ ":" +:+ name)
                    (dict_keys properties) (dataprop_refs spec) |}), r')
    end.
Proof.
  cbn zeta. unfold SpecClass.__init__, SpecClass.extract_metadata, SpecClass.extract_properties.
  cbn [cls_namespace_name cls_name cls_summary cls_description cls_metadata cls_properties].
  destruct (extract_metadata_of _ _ _ _ _ _ _) as [m r1].
  cbn [cls_namespace_name cls_name cls_summary cls_description cls_metadata cls_properties
       fst snd].
  destruct (SpecClass.props_loop _ _ _ _ _ _) as [[properties|e] r2]; reflexivity.
Qed.

End Constructors.

Lemma avline_loop_runs (self_name name : string) (avline_list : list NameValues)
    (_key : option string) (subprops_dict : dict (list string)) (r : logging.Root) :
  runs_on r (SpecClass.avline_loop self_name name avline_list _key subprops_dict r).2.
Proof.
  revert _key subprops_dict r.
  induction avline_list as [|avline l IH]; intros _key d r; cbn [SpecClass.avline_loop].
  - apply runs_on_refl.
  - eapply runs_on_trans; [|apply IH].
    destruct (dict_mem _ _); [apply runs_on_error|apply runs_on_refl].
Qed.

Lemma props_loop_runs (cfg : Config) (self_name : string) (props_list : list PropUsage)
    (_key : option string) (properties : dict (dict (list string))) (r : logging.Root) :
  runs_on r (SpecClass.props_loop cfg self_name props_list _key properties r).2.
Proof.
  revert _key properties r.
  induction props_list as [|prop l IH]; intros _key properties r; cbn [SpecClass.props_loop].
  - apply runs_on_refl.
  - pose proof (avline_loop_runs self_name (pu_name prop) (pu_values prop) _key [] r) as Hav.
    destruct (SpecClass.avline_loop _ _ _ _ _ _) as [[_key' subprops] r1]. cbn [snd] in Hav.
    destruct (dict_mem (pu_name prop) properties).
    + destruct _key' as [k|]; [|exact Hav].
      eapply runs_on_trans; [exact Hav|].
      eapply runs_on_trans; [apply runs_on_error|apply IH].
    + eapply runs_on_trans; [exact Hav|apply IH].
Qed.

Lemma SpecClass_init_runs (cfg : Config) (spec : Spec_obj)
    (namespace_name name summary description : string) (metadata : list NameValues)
    (props : list PropUsage) (r : logging.Root) :
  runs_on (extract_metadata_of cfg SpecClass.logger namespace_name name [] metadata r).2
    (SpecClass.__init__ cfg spec namespace_name name summary description metadata props r).2.
Proof.
  rewrite SpecClass_init_eq. cbn zeta.
  pose proof (props_loop_runs cfg name props None []
                (extract_metadata_of cfg SpecClass.logger namespace_name name [] metadata r).2)
    as H.
  destruct (SpecClass.props_loop _ _ _ _ _ _) as [[properties|e] r2]; exact H.
Qed.

Lemma reported_later (logger m : string) (r r1 r2 : logging.Root) :
  reported logger m r r1 -> runs_on r1 r2 -> reported logger m r r2.
Proof.
  intros [Hin Hs] Hruns. split.
  - eapply runs_on_issued; eassumption.
  - intros H. eapply runs_on_isError; [eassumption|auto].
Qed.

(** ** Duplicate keys *)




(** ** The [id] entry *)

(** C3, as the code has it.  Every constructed Property, Vocabulary and Class
    has an [id] metadata entry.  It is set before the declarations are
    applied, so a declaration named [id] is reported as a duplicate, and it
    then REPLACES the entry with its own values.  Without such a declaration
    the entry is the single value [<prefix><namespace>#<name>], whatever the
    defaults hold and also when nothing is declared. *)
Theorem id_metadata_entry (cfg : Config) (spec : Spec_obj)
    (namespace_name name summary description : string) (metadata : list NameValues)
    (props : list PropUsage) (entries : list EntryLine) (r : logging.Root) :
  let id_entry :=
    match last_named nv_name "id" metadata with
    | Some line => nv_values line
    | None => [generated_id cfg namespace_name name]
    end in
  let redeclared (logger : string) (r' : logging.Root) :=
    (1 <= count_named nv_name "id" metadata)%nat ->
    reported logger (metadata_message name "id") r r' in
  (let built :=
     SpecProperty.__init__ cfg namespace_name name summary description metadata r in
   dict_get "id" (prop_metadata built.1) = Some id_entry
   /\ redeclared "SpecProperty" built.2)
  /\ (let built :=
        SpecVocab.__init__ cfg namespace_name name summary description metadata entries r in
      dict_get "id" (voc_metadata built.1) = Some id_entry
      /\ redeclared "SpecVocab" built.2)
  /\ (let built :=
        SpecClass.__init__ cfg spec namespace_name name summary description metadata props r in
      redeclared "SpecClass" built.2
      /\ forall c spec', built.1 = Ok (c, spec') ->
           dict_get "id" (cls_metadata c) = Some id_entry).
Proof.
  cbn zeta.
  assert (forall logger,
            dict_get "id"
              (extract_metadata_of cfg logger namespace_name name [] metadata r).1
            = Some match last_named nv_name "id" metadata with
                   | Some line => nv_values line
                   | None => [generated_id cfg namespace_name name]
                   end) as Hid.
  { intros logger. rewrite extract_metadata_of_get.
    destruct (last_named nv_name "id" metadata); reflexivity. }
  split; [|split].
  - rewrite SpecProperty_init_eq. cbn [fst snd prop_metadata]. split; [apply Hid|].
    intros H. apply extract_metadata_of_runs. left. split; [reflexivity|exact H].
  - rewrite SpecVocab_init_eq. cbn [fst snd voc_metadata]. split; [apply Hid|].
    intros H. eapply reported_later.
    + apply extract_metadata_of_runs. left. split; [reflexivity|exact H].
    + apply fill_loop_runs.
  - split.
    + intros H. eapply reported_later; [|apply SpecClass_init_runs].
      apply extract_metadata_of_runs. left. split; [reflexivity|exact H].
    + intros c spec'. rewrite SpecClass_init_eq. cbn zeta.
      destruct (SpecClass.props_loop _ _ _ _ _ _) as [[properties|e] r2];
        cbn [fst]; [|discriminate].
      intros [= <- _]. cbn [cls_metadata]. apply Hid.
Qed.

Lemma id_metadata_entry_witness :
  reported "SpecProperty" (metadata_message "hasPart" "id") example_root
    (SpecProperty.__init__ example_config "core" "hasPart" "" "" id_declared example_root).2
  /\ dict_get "id"
       (prop_metadata
          (SpecProperty.__init__ example_config "core" "hasPart" "" "" [] example_root).1)
     = Some ["https://example.org/core#hasPart"].
Proof.
  split.
  - apply (id_metadata_entry example_config (Spec.__init__ "") "core" "hasPart" "" ""
             id_declared [] [] example_root).
    vm_compute. lia.
  - apply (id_metadata_entry example_config (Spec.__init__ "") "core" "hasPart" "" ""
             [] [] [] example_root).
Defined.

(** C3 as stated fails: a declaration named [id] changes the entry, on each
    kind of entity; the generated identifier is gone. *)
Lemma declared_id_replaces_generated :
  generated_id example_config "core" "hasPart" = "https://example.org/core#hasPart"
  /\ dict_get "id"
       (prop_metadata
          (SpecProperty.__init__ example_config "core" "hasPart" "" "" id_declared
             example_root).1) = Some ["urn:x"]
  /\ dict_get "id"
       (voc_metadata
          (SpecVocab.__init__ example_config "core" "hasPart" "" "" id_declared []
             example_root).1) = Some ["urn:x"]
  /\ match (SpecClass.__init__ example_config (Spec.__init__ "") "core" "hasPart" "" ""
              id_declared [] example_root).1 with
     | Ok (c, _) => dict_get "id" (cls_metadata c)
     | Raise _ => None
     end = Some ["urn:x"].
Proof. vm_compute. repeat split. Qed.

(** ** Construction can raise *)

(** C6 fails on the code.  A property-usage name declared twice, with no
    attribute line in any block so far, makes the constructor raise: the
    message of the duplicate reads the local [_key], which only an attribute
    line binds.  No diagnostic of the duplicate is issued. *)
Theorem duplicate_usage_without_attributes_raises (cfg : Config) (spec : Spec_obj)
    (namespace_name name summary description p : string) (metadata : list NameValues)
    (r : logging.Root) :
  SpecClass.__init__ cfg spec namespace_name name summary description metadata
    [{| pu_name := p; pu_values := [] |}; {| pu_name := p; pu_values := [] |}] r
  = (Raise UnboundLocalError,
     (extract_metadata_of cfg SpecClass.logger namespace_name name [] metadata r).2).
Proof.
  rewrite SpecClass_init_eq. cbn zeta.
  cbn [SpecClass.props_loop SpecClass.avline_loop pu_name pu_values dict_mem dict_get].
  fold (@dict_mem (dict (list string))).
  rewrite dict_mem_set, String.eqb_refl. reflexivity.
Qed.

(** ** Registration *)

Lemma add_namespace_eq (self : Spec_obj) (name : string) (classes : list SpecClass_obj)
    (properties : list SpecProperty_obj) (vocabs : list SpecVocab_obj) (r : logging.Root) :
  let cs := fill_loop cls_name (fun c => c) Spec.logger (fun _ => Spec.duplicate_class)
              classes [] r in
  let ps := fill_loop prop_name (fun p => p) Spec.logger (fun _ => Spec.duplicate_prop)
              properties [] cs.2 in
  let vs := fill_loop voc_name (fun v => v) Spec.logger (fun _ => Spec.duplicate_vocab)
              vocabs [] ps.2 in
  Spec.add_namespace self name classes properties vocabs r
  = ({| spec_dir := spec_dir self;
        namespaces :=
          dict_set name
            {| ns_name := name; ns_classes := cs.1; ns_properties := ps.1;
               ns_vocabs := vs.1 |} (namespaces self);
        dataprop_refs := dataprop_refs self |},
     if dict_mem name (namespaces self) then
       logging.error Spec.logger ("Namespace with name: " +:+ name +:+ " already exists") vs.2
     else vs.2).
Proof.
  cbn zeta. unfold Spec.add_namespace. rewrite !register_loop_fill.
  destruct (fill_loop cls_name _ _ _ classes [] r) as [cd r1]. cbn [snd fst].
  rewrite !register_loop_fill.
  destruct (fill_loop prop_name _ _ _ properties [] r1) as [pd r2]. cbn [snd fst].
  rewrite !register_loop_fill.
  destruct (fill_loop voc_name _ _ _ vocabs [] r2) as [vd r3]. reflexivity.
Qed.

Lemma fill_loop_get_fresh {A : Type} (key : A -> string) (logger : string)
    (message : string -> string) (items : list A) (r : logging.Root) (n : string) :
  dict_get n (fill_loop key (fun a => a) logger message items [] r).1 = last_named key n items.
Proof. rewrite fill_loop_get. destruct (last_named key n items); reflexivity. Qed.

(** C8.  [add_namespace] registers every entity under its name, a later one
    of the same kind and name replacing the earlier one; it stores the new
    namespace under its name, replacing one registered before, and leaves the
    others alone; every duplicate, of an entity or of the namespace, is
    reported as an ERROR. *)
Theorem add_namespace_keeps_last (self : Spec_obj) (name : string)
    (classes : list SpecClass_obj) (properties : list SpecProperty_obj)
    (vocabs : list SpecVocab_obj) (r : logging.Root) :
  let built := Spec.add_namespace self name classes properties vocabs r in
  (exists el : Namespace_el,
     dict_get name (namespaces built.1) = Some el
     /\ ns_name el = name
     /\ (forall n, dict_get n (ns_classes el) = last_named cls_name n classes)
     /\ (forall n, dict_get n (ns_properties el) = last_named prop_name n properties)
     /\ (forall n, dict_get n (ns_vocabs el) = last_named voc_name n vocabs))
  /\ (forall n, n <> name -> dict_get n (namespaces built.1) = dict_get n (namespaces self))
  /\ dataprop_refs built.1 = dataprop_refs self
  /\ (dict_mem name (namespaces self) = true ->
      reported "Spec" ("Namespace with name: " +:+ name +:+ " already exists") r built.2)
  /\ (forall n, (2 <= count_named cls_name n classes)%nat ->
      reported "Spec" Spec.duplicate_class r built.2)
  /\ (forall n, (2 <= count_named prop_name n properties)%nat ->
      reported "Spec" Spec.duplicate_prop r built.2)
  /\ (forall n, (2 <= count_named voc_name n vocabs)%nat ->
      reported "Spec" Spec.duplicate_vocab r built.2).
Proof.
  cbn zeta. rewrite add_namespace_eq. cbn zeta. cbn [fst snd namespaces dataprop_refs].
  set (cs := fill_loop cls_name _ _ _ classes [] r).
  set (ps := fill_loop prop_name _ _ _ properties [] cs.2).
  set (vs := fill_loop voc_name _ _ _ vocabs [] ps.2).
  set (r' := if dict_mem name (namespaces self) then _ else _).
  destruct (fill_loop_runs cls_name (fun c => c) Spec.logger (fun _ => Spec.duplicate_class)
              classes [] r) as [Hc Hcd].
  destruct (fill_loop_runs prop_name (fun p => p) Spec.logger (fun _ => Spec.duplicate_prop)
              properties [] cs.2) as [Hp Hpd].
  destruct (fill_loop_runs voc_name (fun v => v) Spec.logger (fun _ => Spec.duplicate_vocab)
              vocabs [] ps.2) as [Hv Hvd].
  fold cs in Hc, Hcd, Hp, Hpd. fold ps in Hp, Hpd, Hv, Hvd. fold vs in Hv, Hvd.
  assert (runs_on vs.2 r') as Hr'.
  { unfold r'. destruct (dict_mem name (namespaces self));
      [apply runs_on_error|apply runs_on_refl]. }
  assert (runs_on r ps.2) as Hrp by (eapply runs_on_trans; eassumption).
  assert (runs_on r vs.2) as Hrv by (eapply runs_on_trans; eassumption).
  split; [|split; [|split; [|split; [|split; [|split]]]]].
  - eexists. split; [apply dict_get_set_eq|]. cbn [ns_name ns_classes ns_properties ns_vocabs].
    repeat split; intros n; apply fill_loop_get_fresh.
  - intros n Hn. apply dict_get_set_ne, Hn.
  - reflexivity.
  - intros Hmem. unfold r'. rewrite Hmem. split.
    + unfold logging.error. rewrite issued_log. apply elem_of_app. right.
      apply list_elem_of_singleton. reflexivity.
    + intros Hs. apply isError_error. rewrite (runs_on_sink_listens _ _ Hrv). exact Hs.
  - intros n Hn. destruct (Hcd n (or_intror Hn)) as [Hin His].
    apply (reported_later _ _ r cs.2); [split; assumption|].
    eapply runs_on_trans; [exact Hp|eapply runs_on_trans; eassumption].
  - intros n Hn. destruct (Hpd n (or_intror Hn)) as [Hin His].
    apply (reported_later _ _ r ps.2); [|eapply runs_on_trans; eassumption].
    split; [exact Hin|]. intros Hs. apply His.
    rewrite (runs_on_sink_listens _ _ Hc). exact Hs.
  - intros n Hn. destruct (Hvd n (or_intror Hn)) as [Hin His].
    apply (reported_later _ _ r vs.2); [|exact Hr'].
    split; [exact Hin|]. intros Hs. apply His.
    rewrite (runs_on_sink_listens _ _ Hrp). exact Hs.
Qed.

Lemma add_namespace_keeps_last_witness :
  reported "Spec" Spec.duplicate_class example_root
    (Spec.add_namespace (Spec.__init__ "") "core"
       [widget_with_id ["urn:x"]; widget_subclass] [] [] example_root).2.
Proof.
  apply (add_namespace_keeps_last (Spec.__init__ "") "core"
           [widget_with_id ["urn:x"]; widget_subclass] [] [] example_root) with "Widget".
  vm_compute. lia.
Defined.

(** ** The reverse index *)

Section DictKeys.
Context {V : Type}.
Implicit Types (d : dict V) (k : string) (v : V).

Lemma dict_mem_keys k d : dict_mem k d = true <-> k ∈ dict_keys d.
Proof.
  unfold dict_mem, dict_keys. induction d as [|[k0 v0] d IH]; cbn [dict_get map fst].
  - split; [discriminate|inversion 1].
  - rewrite elem_of_cons. destruct (String.eqb_spec k k0) as [->|Hk].
    + split; [left; reflexivity|reflexivity].
    + rewrite IH. split; [right; assumption|intros [?|?]; [contradiction|assumption]].
Qed.

Lemma dict_keys_set k v d :
  dict_keys (dict_set k v d) = if dict_mem k d then dict_keys d else dict_keys d ++ [k].
Proof.
  unfold dict_mem, dict_keys. induction d as [|[k0 v0] d IH]; cbn [dict_set dict_get map fst].
  - reflexivity.
  - destruct (String.eqb_spec k k0) as [->|Hk]; cbn [map fst]; [reflexivity|].
    rewrite IH. destruct (dict_get k d); reflexivity.
Qed.

Lemma dict_keys_set_NoDup k v d : NoDup (dict_keys d) -> NoDup (dict_keys (dict_set k v d)).
Proof.
  intros H. rewrite dict_keys_set. destruct (dict_mem k d) eqn:Hm; [exact H|].
  apply NoDup_app. split; [exact H|]. split; [|apply NoDup_singleton].
  intros x Hx ->%list_elem_of_singleton. apply dict_mem_keys in Hx. congruence.
Qed.

Lemma dict_keys_set_elem k' k v d :
  k' ∈ dict_keys (dict_set k v d) <-> k' = k \/ k' ∈ dict_keys d.
Proof.
  rewrite <- !dict_mem_keys, dict_mem_set, orb_true_iff, String.eqb_eq. reflexivity.
Qed.

End DictKeys.

(** The names of the usage blocks are the keys of [self.properties], each
    once. *)
Lemma props_loop_keys (cfg : Config) (self_name : string) (props_list : list PropUsage)
    (_key : option string) (properties properties' : dict (dict (list string)))
    (r r' : logging.Root) :
  SpecClass.props_loop cfg self_name props_list _key properties r = (Ok properties', r') ->
  NoDup (dict_keys properties) ->
  NoDup (dict_keys properties')
  /\ forall p, p ∈ dict_keys properties'
               <-> p ∈ dict_keys properties \/ p ∈ map pu_name props_list.
Proof.
  revert _key properties r.
  induction props_list as [|prop l IH]; intros _key properties r; cbn [SpecClass.props_loop].
  - intros [= <- _] Hnd. split; [exact Hnd|]. intros p. cbn [map].
    split; [left; assumption|intros [?|H]; [assumption|inversion H]].
  - destruct (SpecClass.avline_loop _ _ _ _ _ _) as [[_key' subprops] r1].
    assert (forall r2,
              SpecClass.props_loop cfg self_name l _key'
                (dict_set (pu_name prop) (union_dict subprops (property_defaults cfg)) properties)
                r2 = (Ok properties', r') ->
              NoDup (dict_keys properties) ->
              NoDup (dict_keys properties')
              /\ forall p, p ∈ dict_keys properties'
                           <-> p ∈ dict_keys properties \/ p ∈ map pu_name (prop :: l))
      as Hstep.
    { intros r2 Hloop Hnd.
      destruct (IH _ _ _ Hloop (dict_keys_set_NoDup _ _ _ Hnd)) as [Hnd' Hkeys].
      split; [exact Hnd'|]. intros p. rewrite Hkeys, dict_keys_set_elem. cbn [map].
      rewrite elem_of_cons. tauto. }
    destruct (dict_mem (pu_name prop) properties).
    + destruct _key' as [k|]; [apply Hstep|discriminate].
    + apply Hstep.
Qed.

Lemma dict_get_default_get {V : Type} (k : string) (dflt : V) (d : dict V) :
  Some (dict_get_default k dflt d)
  = match dict_get k d with Some v => Some v | None => Some dflt end.
Proof. unfold dict_get_default. destruct (dict_get k d); reflexivity. Qed.

(** Every key of the walk gains the reference once; the rest of the index is
    untouched. *)
Lemma refs_loop_get (ref : string) (keys : list string) (dataprop_refs : dict (list string))
    (p : string) :
  NoDup keys ->
  dict_get p (SpecClass.refs_loop ref keys dataprop_refs)
  = if decide (p ∈ keys) then Some (dict_get_default p [] dataprop_refs ++ [ref])
    else dict_get p dataprop_refs.
Proof.
  revert dataprop_refs.
  induction keys as [|k keys IH]; intros refs Hnd; cbn [SpecClass.refs_loop].
  - rewrite decide_False by inversion 1. reflexivity.
  - apply NoDup_cons in Hnd as [Hk Hnd]. rewrite (IH _ Hnd).
    set (refs1 := if negb (dict_mem k refs) then dict_set k [] refs else refs).
    assert (forall q, dict_get_default q [] refs1 = dict_get_default q [] refs) as Hsame.
    { intros q. unfold refs1, dict_get_default, dict_mem.
      destruct (dict_get k refs) eqn:Hg; cbn [negb]; [reflexivity|].
      rewrite dict_get_set. destruct (String.eqb_spec q k) as [->|_]; [rewrite Hg|]; reflexivity. }
    assert (forall q, q <> k -> dict_get q refs1 = dict_get q refs) as Hother.
    { intros q Hq. unfold refs1. destruct (negb _); [apply dict_get_set_ne, Hq|reflexivity]. }
    destruct (decide (p ∈ keys)) as [Hin|Hnin].
    + rewrite decide_True by (right; exact Hin). f_equal. f_equal.
      assert (p <> k) as Hpk by (intros ->; contradiction).
      unfold dict_get_default at 1. rewrite dict_get_set_ne by exact Hpk.
      fold (dict_get_default p [] refs1). apply Hsame.
    + destruct (decide (p = k)) as [->|Hpk].
      * rewrite decide_True by (left; reflexivity).
        rewrite dict_get_set_eq, Hsame. reflexivity.
      * rewrite decide_False by (intros [?|?]%elem_of_cons; contradiction).
        rewrite dict_get_set_ne by exact Hpk. apply Hother, Hpk.
Qed.

(** C9.  After a Class is constructed, the reverse-index list of every
    property name it declared usage of is the former list (empty when the
    name was new) with [<namespace>:<className>] appended once; the other
    lists and the namespaces are untouched.  A second class constructed next
    in the same namespace and using the same property adds its own entry
    after the first. *)
Theorem class_usage_is_indexed (cfg : Config) (spec spec' : Spec_obj)
    (namespace_name name summary description : string) (metadata : list NameValues)
    (props : list PropUsage) (r r' : logging.Root) (c : SpecClass_obj) :
  SpecClass.__init__ cfg spec namespace_name name summary description metadata props r
  = (Ok (c, spec'), r') ->
  (forall p, p ∈ map pu_name props ->
     dict_get p (dataprop_refs spec')
     = Some (dict_get_default p [] (dataprop_refs spec) ++ [namespace_name +:+ ":" +:+ name]))
  /\ (forall p, p ∉ map pu_name props ->
        dict_get p (dataprop_refs spec') = dict_get p (dataprop_refs spec))
  /\ namespaces spec' = namespaces spec
  /\ (forall nameB summaryB descriptionB metadataB propsB cB spec'' r'',
        SpecClass.__init__ cfg spec' namespace_name nameB summaryB descriptionB metadataB
          propsB r' = (Ok (cB, spec''), r'') ->
        forall p, p ∈ map pu_name props -> p ∈ map pu_name propsB ->
          dict_get p (dataprop_refs spec'')
          = Some (dict_get_default p [] (dataprop_refs spec)
                    ++ [namespace_name +:+ ":" +:+ name; namespace_name +:+ ":" +:+ nameB])).
Proof.
  assert (forall spec0 spec1 nm s d md ps r0 r1 c0,
            SpecClass.__init__ cfg spec0 namespace_name nm s d md ps r0 = (Ok (c0, spec1), r1) ->
            namespaces spec1 = namespaces spec0
            /\ forall p,
                 dict_get p (dataprop_refs spec1)
                 = if decide (p ∈ map pu_name ps)
                   then Some (dict_get_default p [] (dataprop_refs spec0)
                                ++ [namespace_name +:+ ":" +:+ nm])
                   else dict_get p (dataprop_refs spec0)) as Hone.
  { intros spec0 spec1 nm s d md ps r0 r1 c0. rewrite SpecClass_init_eq. cbn zeta.
    destruct (SpecClass.props_loop _ _ _ _ _ _) as [[properties|e] r2] eqn:Hloop;
      [|discriminate].
    intros [= _ <- _]. cbn [namespaces dataprop_refs]. split; [reflexivity|].
    destruct (props_loop_keys _ _ _ _ _ _ _ _ Hloop (NoDup_nil_2 (A:=string))) as [Hnd Hkeys].
    intros p. rewrite (refs_loop_get _ _ _ _ Hnd).
    destruct (decide (p ∈ dict_keys properties)) as [Hin|Hnin].
    - rewrite decide_True; [reflexivity|]. apply Hkeys in Hin as [Hin|Hin]; [inversion Hin|exact Hin].
    - rewrite decide_False; [reflexivity|]. intros Hin. apply Hnin, Hkeys. right. exact Hin. }
  intros Hinit. destruct (Hone _ _ _ _ _ _ _ _ _ _ Hinit) as [Hns Hrefs].
  split; [|split; [|split]].
  - intros p Hp. rewrite Hrefs, decide_True by exact Hp. reflexivity.
  - intros p Hp. rewrite Hrefs, decide_False by exact Hp. reflexivity.
  - exact Hns.
  - intros nameB summaryB descriptionB metadataB propsB cB spec'' r'' HinitB p Hp HpB.
    destruct (Hone _ _ _ _ _ _ _ _ _ _ HinitB) as [_ HrefsB].
    rewrite HrefsB, decide_True by exact HpB.
    unfold dict_get_default at 1. rewrite Hrefs, decide_True by exact Hp.
    rewrite <- app_assoc. reflexivity.
Qed.

Lemma class_usage_is_indexed_witness :
  dict_get "label" (dataprop_refs (index_of_label ["core:ClassA"]))
  = Some (dict_get_default "label" [] (dataprop_refs (Spec.__init__ "")) ++ ["core:ClassA"])
  /\ dict_get "label" (dataprop_refs (index_of_label ["core:ClassA"; "core:ClassB"]))
     = Some (dict_get_default "label" [] (dataprop_refs (Spec.__init__ ""))
               ++ ["core:ClassA"; "core:ClassB"]).
Proof.
  pose proof (class_usage_is_indexed example_config (Spec.__init__ "")
                (index_of_label ["core:ClassA"]) "core" "ClassA" "" "" [] label_usage
                example_root example_root (class_using_label "ClassA") eq_refl)
    as (HA & _ & _ & HB).
  split.
  - apply (HA "label"). apply list_elem_of_singleton. reflexivity.
  - apply (HB "ClassB" "" "" [] label_usage (class_using_label "ClassB")
             (index_of_label ["core:ClassA"; "core:ClassB"]) example_root eq_refl "label");
      apply list_elem_of_singleton; reflexivity.
Defined.

(** ** Triple contribution *)

Lemma fold_add (f : string -> Triple) (vs : list string) (g : Graph) :
  fold_left (fun g v => add (f v) g) vs g = g ∪ list_to_set (f <$> vs).
Proof.
  revert g. induction vs as [|v vs IH]; intros g; cbn [fold_left fmap list_fmap list_to_set].
  - unfold_leibniz. set_solver.
  - rewrite IH. unfold add. set_solver.
Qed.

Lemma SpecClass_gen_rdf_eq (cfg : Config) (self : SpecClass_obj) (g : Graph)
    (id : string) (more : list string) :
  dict_get "id" (cls_metadata self) = Some (id :: more) ->
  SpecClass._gen_rdf cfg self g
  = Ok (g ∪ {[ (URIRef id, RDF_type, OWL "Class") ]}
          ∪ list_to_set
              ((fun subclass =>
                  (URIRef id, RDFS_subClassOf,
                   URIRef (gen_rdf_id cfg subclass (cls_namespace_name self))))
                 <$> dict_get_default "SubclassOf" [] (cls_metadata self))).
Proof.
  intros Hid. unfold SpecClass._gen_rdf. rewrite Hid, fold_add. reflexivity.
Qed.

Lemma SpecProperty_gen_rdf_eq (cfg : Config) (self : SpecProperty_obj) (g : Graph)
    (id : string) (more : list string) :
  dict_get "id" (prop_metadata self) = Some (id :: more) ->
  SpecProperty._gen_rdf cfg self g
  = Ok (g ∪ {[ (URIRef id, RDF_type,
                OWL (if SpecProperty.nature_truthy (prop_metadata self)
                     then "ObjectProperty" else "DatatypeProperty")) ]}
          ∪ list_to_set
              ((fun _val =>
                  (URIRef id, RDFS_range,
                   URIRef (gen_rdf_id cfg _val (prop_namespace_name self))))
                 <$> dict_get_default "Range" [] (prop_metadata self))
          ∪ list_to_set
              ((fun _val =>
                  (URIRef id, RDFS_domain,
                   URIRef (gen_rdf_id cfg _val (prop_namespace_name self))))
                 <$> dict_get_default "Domain" [] (prop_metadata self))).
Proof.
  intros Hid. unfold SpecProperty._gen_rdf. rewrite Hid, !fold_add.
  destruct (SpecProperty.nature_truthy (prop_metadata self)); reflexivity.
Qed.

Lemma first_value_get {V : Type} (k : string) (d : dict (list V)) (v : V) :
  head (dict_get_default k [] d) = Some v ->
  exists more, dict_get k d = Some (v :: more).
Proof.
  unfold dict_get_default. destruct (dict_get k d) as [[|v0 more]|]; cbn; try discriminate.
  intros [= ->]. eauto.
Qed.

(** The values a constructed entity holds under a key other than [id]: those
    of the last declaration of the key, else those of its default. *)
Lemma extract_metadata_of_values (cfg : Config) (logger namespace_name self_name k : string)
    (mdata_list : list NameValues) (r : logging.Root) :
  k <> "id" ->
  dict_get_default k [] (extract_metadata_of cfg logger namespace_name self_name [] mdata_list r).1
  = match last_named nv_name k mdata_list with
    | Some line => nv_values line
    | None => dict_get_default k [] (metadata_defaults cfg)
    end.
Proof.
  intros Hk. unfold dict_get_default at 1. rewrite extract_metadata_of_get.
  destruct (last_named nv_name k mdata_list); [reflexivity|].
  destruct (String.eqb_spec k "id"); [contradiction|reflexivity].
Qed.

(** C7, as the code has it.  For a constructed Class whose [id] entry has a
    first value [id], the triple contribution adds to the graph exactly
    [(id, rdf:type, owl:Class)] and, for every value [v] of the [SubclassOf]
    entry, [(id, rdfs:subClassOf, resolve(v, namespace))], resolved against
    the namespace of the class.  [id] is [<prefix><namespace>#<name>] unless a
    declaration named [id] replaced it; the [SubclassOf] values are those of
    the last declaration of the key, else those of the default.  With
    [base:Thing] among them the object [<prefix>base#Thing] is asserted. *)
Theorem class_triples (cfg : Config) (spec spec' : Spec_obj)
    (namespace_name name summary description : string) (metadata : list NameValues)
    (props : list PropUsage) (r r' : logging.Root) (c : SpecClass_obj) (id : string) :
  SpecClass.__init__ cfg spec namespace_name name summary description metadata props r
  = (Ok (c, spec'), r') ->
  head (dict_get_default "id" [] (cls_metadata c)) = Some id ->
  (forall g : Graph,
     SpecClass._gen_rdf cfg c g
     = Ok (g ∪ {[ (URIRef id, RDF_type, OWL "Class") ]}
             ∪ list_to_set
                 ((fun v => (URIRef id, RDFS_subClassOf,
                             URIRef (gen_rdf_id cfg v namespace_name)))
                    <$> dict_get_default "SubclassOf" [] (cls_metadata c))))
  /\ (last_named nv_name "id" metadata = None -> id = generated_id cfg namespace_name name)
  /\ dict_get_default "SubclassOf" [] (cls_metadata c)
     = match last_named nv_name "SubclassOf" metadata with
       | Some line => nv_values line
       | None => dict_get_default "SubclassOf" [] (metadata_defaults cfg)
       end
  /\ (forall g g' : Graph,
        SpecClass._gen_rdf cfg c g = Ok g' ->
        "base:Thing" ∈ dict_get_default "SubclassOf" [] (cls_metadata c) ->
        (URIRef id, RDFS_subClassOf, URIRef (id_metadata_prefix cfg +:+ "base#Thing")) ∈ g').
Proof.
  rewrite SpecClass_init_eq. cbn zeta.
  destruct (SpecClass.props_loop _ _ _ _ _ _) as [[properties|e] r2]; [|discriminate].
  intros [= <- _ _] Hid. cbn [cls_metadata] in *.
  destruct (first_value_get _ _ _ Hid) as [more Hget].
  assert (forall g : Graph,
            SpecClass._gen_rdf cfg
              {| cls_namespace_name := namespace_name; cls_name := name;
                 cls_summary := summary; cls_description := description;
                 cls_metadata :=
                   (extract_metadata_of cfg SpecClass.logger namespace_name name []
                      metadata r).1;
                 cls_properties := properties |} g
            = Ok (g ∪ {[ (URIRef id, RDF_type, OWL "Class") ]}
                    ∪ list_to_set
                        ((fun v => (URIRef id, RDFS_subClassOf,
                                    URIRef (gen_rdf_id cfg v namespace_name)))
                           <$> dict_get_default "SubclassOf" []
                                 (extract_metadata_of cfg SpecClass.logger namespace_name
                                    name [] metadata r).1))) as Hgen.
  { intros g. rewrite (SpecClass_gen_rdf_eq cfg _ g id more) by exact Hget. reflexivity. }
  split; [exact Hgen|]. split; [|split].
  - intros Hnone. rewrite extract_metadata_of_get, Hnone in Hget. cbn in Hget. congruence.
  - apply extract_metadata_of_values. discriminate.
  - intros g g' Hg' Hin. rewrite Hgen in Hg'. injection Hg' as <-.
    apply elem_of_union_r, elem_of_list_to_set, list_elem_of_fmap.
    exists "base:Thing". split; [reflexivity|exact Hin].
Qed.

Lemma class_triples_witness :
  SpecClass._gen_rdf example_config widget_subclass ∅
  = Ok ({[ (URIRef "https://example.org/core#Widget", RDF_type, OWL "Class") ]}
          ∪ {[ (URIRef "https://example.org/core#Widget", RDFS_subClassOf,
                URIRef "https://example.org/base#Thing") ]}).
Proof.
  rewrite (proj1 (class_triples example_config (Spec.__init__ "") (Spec.__init__ "")
                    "core" "Widget" "" "" subclass_of_base_thing [] example_root example_root
                    widget_subclass "https://example.org/core#Widget" eq_refl eq_refl) ∅).
  reflexivity.
Defined.

(** C7 as stated fails on a class that declares [id]: with no value the
    triple contribution raises, with a value of its own the subject is that
    value and not the identifier of the class. *)
Lemma class_with_declared_id :
  (SpecClass.__init__ example_config (Spec.__init__ "") "core" "Widget" "" ""
     id_declared_empty [] example_root).1 = Ok (widget_with_id [], Spec.__init__ "")
  /\ SpecClass._gen_rdf example_config (widget_with_id []) ∅ = Raise IndexError
  /\ (SpecClass.__init__ example_config (Spec.__init__ "") "core" "Widget" "" ""
        id_declared [] example_root).1 = Ok (widget_with_id ["urn:x"], Spec.__init__ "")
  /\ SpecClass._gen_rdf example_config (widget_with_id ["urn:x"]) ∅
     = Ok {[ (URIRef "urn:x", RDF_type, OWL "Class") ]}
  /\ generated_id example_config "core" "Widget" = "https://example.org/core#Widget".
Proof.
  split; [reflexivity|]. split; [reflexivity|]. split; [reflexivity|].
  split; [|reflexivity].
  rewrite (SpecClass_gen_rdf_eq _ _ _ "urn:x" []) by reflexivity.
  reflexivity.
Qed.

Lemma nature_truthy_spec (metadata : dict (list string)) :
  SpecProperty.nature_truthy metadata = true
  <-> dict_get "Nature" metadata = None
      \/ exists v vs, dict_get "Nature" metadata = Some (v :: vs).
Proof.
  unfold SpecProperty.nature_truthy.
  destruct (dict_get "Nature" metadata) as [[|v vs]|].
  - split; [discriminate|]. intros [?|(v & vs & ?)]; discriminate.
  - split; [eauto|reflexivity].
  - split; [auto|reflexivity].
Qed.

(** C5, as the code has it.  For a constructed Property whose [id] entry has
    a first value [id], the triple contribution adds to the graph exactly: the
    type triple, [owl:ObjectProperty] when the [Nature] key is absent or its
    value list is not empty and [owl:DatatypeProperty] when the list is
    empty; [(id, rdfs:range, resolve(v, namespace))] for every value [v] of
    [Range]; and [(id, rdfs:domain, resolve(v, namespace))] for every value
    [v] of [Domain], resolved against the namespace of the property.  [id]
    is [<prefix><namespace>#<name>] unless a declaration named [id] replaced
    it. *)
Theorem property_triples (cfg : Config)
    (namespace_name name summary description : string) (metadata : list NameValues)
    (r : logging.Root) (id : string) :
  let p := (SpecProperty.__init__ cfg namespace_name name summary description metadata r).1 in
  head (dict_get_default "id" [] (prop_metadata p)) = Some id ->
  (forall g : Graph,
     SpecProperty._gen_rdf cfg p g
     = Ok (g ∪ {[ (URIRef id, RDF_type,
                   OWL (if SpecProperty.nature_truthy (prop_metadata p)
                        then "ObjectProperty" else "DatatypeProperty")) ]}
             ∪ list_to_set
                 ((fun v => (URIRef id, RDFS_range, URIRef (gen_rdf_id cfg v namespace_name)))
                    <$> dict_get_default "Range" [] (prop_metadata p))
             ∪ list_to_set
                 ((fun v => (URIRef id, RDFS_domain, URIRef (gen_rdf_id cfg v namespace_name)))
                    <$> dict_get_default "Domain" [] (prop_metadata p))))
  /\ (forall g g' : Graph,
        SpecProperty._gen_rdf cfg p g = Ok g' ->
        (dict_get "Nature" (prop_metadata p) = None
         \/ (exists v vs, dict_get "Nature" (prop_metadata p) = Some (v :: vs)) ->
         (URIRef id, RDF_type, OWL "ObjectProperty") ∈ g')
        /\ (dict_get "Nature" (prop_metadata p) = Some [] ->
            (URIRef id, RDF_type, OWL "DatatypeProperty") ∈ g')
        /\ (forall v, v ∈ dict_get_default "Range" [] (prop_metadata p) ->
            (URIRef id, RDFS_range, URIRef (gen_rdf_id cfg v namespace_name)) ∈ g')
        /\ (forall v, v ∈ dict_get_default "Domain" [] (prop_metadata p) ->
            (URIRef id, RDFS_domain, URIRef (gen_rdf_id cfg v namespace_name)) ∈ g'))
  /\ (last_named nv_name "id" metadata = None -> id = generated_id cfg namespace_name name).
Proof.
  cbn zeta. rewrite SpecProperty_init_eq. cbn [fst prop_metadata]. intros Hid.
  destruct (first_value_get _ _ _ Hid) as [more Hget].
  set (m := (extract_metadata_of cfg SpecProperty.logger namespace_name name [] metadata r).1)
    in *.
  set (p := {| prop_namespace_name := namespace_name; prop_name := name;
               prop_summary := summary; prop_description := description;
               prop_metadata := m |}).
  assert (forall g : Graph,
            SpecProperty._gen_rdf cfg p g
            = Ok (g ∪ {[ (URIRef id, RDF_type,
                          OWL (if SpecProperty.nature_truthy m
                               then "ObjectProperty" else "DatatypeProperty")) ]}
                    ∪ list_to_set
                        ((fun v => (URIRef id, RDFS_range,
                                    URIRef (gen_rdf_id cfg v namespace_name)))
                           <$> dict_get_default "Range" [] m)
                    ∪ list_to_set
                        ((fun v => (URIRef id, RDFS_domain,
                                    URIRef (gen_rdf_id cfg v namespace_name)))
                           <$> dict_get_default "Domain" [] m))) as Hgen.
  { intros g. rewrite (SpecProperty_gen_rdf_eq cfg p g id more) by exact Hget. reflexivity. }
  split; [exact Hgen|]. split.
  - intros g g' Hg'. rewrite Hgen in Hg'. injection Hg' as <-.
    split; [|split; [|split]].
    + intros Hn. apply nature_truthy_spec in Hn. rewrite Hn. set_solver.
    + intros Hn. unfold SpecProperty.nature_truthy. rewrite Hn. set_solver.
    + intros v Hv. apply elem_of_union_l, elem_of_union_r, elem_of_list_to_set,
        list_elem_of_fmap. exists v. split; [reflexivity|exact Hv].
    + intros v Hv. apply elem_of_union_r, elem_of_list_to_set, list_elem_of_fmap.
      exists v. split; [reflexivity|exact Hv].
  - intros Hnone. unfold m in Hget. rewrite extract_metadata_of_get, Hnone in Hget.
    cbn in Hget. congruence.
Qed.

Lemma property_triples_witness :
  SpecProperty._gen_rdf example_config
    (SpecProperty.__init__ example_config "core" "hasPart" "" "" domain_and_range
       example_root).1 ∅
  = Ok ({[ (URIRef "https://example.org/core#hasPart", RDF_type, OWL "ObjectProperty") ]}
          ∪ {[ (URIRef "https://example.org/core#hasPart", RDFS_range,
                URIRef "https://example.org/core#Gadget") ]}
          ∪ {[ (URIRef "https://example.org/core#hasPart", RDFS_domain,
                URIRef "https://example.org/core#Widget") ]}).
Proof.
  rewrite (proj1 (property_triples example_config "core" "hasPart" "" "" domain_and_range
                    example_root "https://example.org/core#hasPart" eq_refl) ∅).
  reflexivity.
Defined.

(** C5 as stated fails on a property that declares [id]: with no value the
    triple contribution raises, with a value of its own the subject is that
    value and not the identifier of the property. *)
Lemma property_with_declared_id :
  (SpecProperty.__init__ example_config "core" "hasPart" "" "" id_declared_empty
     example_root).1 = hasPart_with_id []
  /\ SpecProperty._gen_rdf example_config (hasPart_with_id []) ∅ = Raise IndexError
  /\ (SpecProperty.__init__ example_config "core" "hasPart" "" "" id_declared
        example_root).1 = hasPart_with_id ["urn:x"]
  /\ SpecProperty._gen_rdf example_config (hasPart_with_id ["urn:x"]) ∅
     = Ok {[ (URIRef "urn:x", RDF_type, OWL "ObjectProperty") ]}
  /\ generated_id example_config "core" "hasPart" = "https://example.org/core#hasPart".
Proof.
  split; [reflexivity|]. split; [reflexivity|]. split; [reflexivity|].
  split; [|reflexivity].
  rewrite (SpecProperty_gen_rdf_eq _ _ _ "urn:x" []) by reflexivity.
  reflexivity.
Qed.

(** ** The error check before the artifacts *)

Lemma fold_write_file {A : Type} (f : A -> World -> World) (xs : list A) (w : World) :
  (forall x, exists page, forall w, f x w = write_file page.1 page.2 w) ->
  root (fold_left (fun w x => f x w) xs w) = root w
  /\ exists pages,
       written (fold_left (fun w x => f x w) xs w) = written w ++ pages
       /\ length pages = length xs.
Proof.
  intros Hf. revert w. induction xs as [|x xs IH]; intros w; cbn [fold_left].
  - split; [reflexivity|]. exists []. rewrite app_nil_r. split; reflexivity.
  - destruct (Hf x) as [page Hpage]. rewrite Hpage.
    destruct (IH (write_file page.1 page.2 w)) as [Hroot (pages & Hw & Hlen)].
    split; [exact Hroot|]. exists ((page.1, page.2) :: pages).
    rewrite Hw. cbn [write_file written length]. rewrite <- app_assoc.
    split; [reflexivity|]. rewrite Hlen. reflexivity.
Qed.

Lemma dump_md_namespace_pages (cfg : Config) (self : Spec_obj) (args : Args) (w : World)
    (namespace : Namespace_el) :
  root (Spec.dump_md_namespace cfg self args w namespace) = root w
  /\ exists pages,
       written (Spec.dump_md_namespace cfg self args w namespace) = written w ++ pages
       /\ length pages
          = (length (ns_classes namespace) + length (ns_properties namespace)
             + length (ns_vocabs namespace))%nat.
Proof.
  unfold Spec.dump_md_namespace.
  destruct (fold_write_file (fun c w => SpecClass.dump_md cfg c args w)
              (dict_values (ns_classes namespace)) w) as [Hr1 (p1 & Hw1 & Hl1)].
  { intros c. eexists (_, _). intros w0. reflexivity. }
  set (w1 := fold_left _ (dict_values (ns_classes namespace)) w) in *.
  destruct (fold_write_file (fun p w => SpecProperty.dump_md cfg self p args w)
              (dict_values (ns_properties namespace)) w1) as [Hr2 (p2 & Hw2 & Hl2)].
  { intros c. eexists (_, _). intros w0. reflexivity. }
  set (w2 := fold_left _ (dict_values (ns_properties namespace)) w1) in *.
  destruct (fold_write_file (fun v w => SpecVocab.dump_md cfg v args w)
              (dict_values (ns_vocabs namespace)) w2) as [Hr3 (p3 & Hw3 & Hl3)].
  { intros c. eexists (_, _). intros w0. reflexivity. }
  split; [congruence|]. exists (p1 ++ p2 ++ p3).
  rewrite Hw3, Hw2, Hw1, <- !app_assoc. split; [reflexivity|].
  rewrite !length_app, Hl1, Hl2, Hl3. unfold dict_values. rewrite !length_map. lia.
Qed.

Lemma dump_md_pages (cfg : Config) (self : Spec_obj) (args : Args) (w : World) :
  let w' := fold_left (Spec.dump_md_namespace cfg self args) (dict_values (namespaces self)) w in
  root w' = root w
  /\ exists pages, written w' = written w ++ pages /\ length pages = entity_count self.
Proof.
  cbn zeta. unfold entity_count. revert w.
  induction (dict_values (namespaces self)) as [|namespace l IH]; intros w;
    cbn [fold_left foldr].
  - split; [reflexivity|]. exists []. rewrite app_nil_r. split; reflexivity.
  - destruct (dump_md_namespace_pages cfg self args w namespace) as [Hr (p1 & Hw & Hl)].
    destruct (IH (Spec.dump_md_namespace cfg self args w namespace)) as [Hr' (p2 & Hw' & Hl')].
    split; [congruence|]. exists (p1 ++ p2). rewrite Hw', Hw, <- app_assoc.
    split; [reflexivity|]. rewrite length_app, Hl, Hl'. lia.
Qed.

(** What the two steps do once [isError] holds. *)
Lemma gate_closed (serialize : Graph -> outcome string) (cfg : Config) (self : Spec_obj) (args : Args)
    (w : World) :
  isError (root w) = true ->
  Spec.dump_md cfg self args w = set_root (logging.warning Spec.logger abort_dump_md (root w)) w
  /\ Spec.gen_rdf serialize cfg self args w
     = match triple_walk cfg self with
       | Ok _ => (Ok tt, set_root (logging.warning Spec.logger abort_gen_rdf (root w)) w)
       | Raise e => (Raise e, w)
       end.
Proof.
  intros H. unfold Spec.dump_md, Spec.gen_rdf, triple_walk. rewrite H.
  split; [reflexivity|]. destruct (Spec.gen_each _ _ _); reflexivity.
Qed.

(** What they do while it does not. *)
Lemma gate_open (serialize : Graph -> outcome string) (cfg : Config) (self : Spec_obj)
    (args : Args) (w : World) :
  isError (root w) = false ->
  Spec.dump_md cfg self args w
  = fold_left (Spec.dump_md_namespace cfg self args) (dict_values (namespaces self)) w
  /\ Spec.gen_rdf serialize cfg self args w
     = match triple_walk cfg self with
       | Ok g =>
           match serialize g with
           | Ok text => (Ok tt, write_file (path_join (out args) ["tst.ttl"]) text w)
           | Raise e => (Raise e, write_file (path_join (out args) ["tst.ttl"]) "" w)
           end
       | Raise e => (Raise e, w)
       end.
Proof.
  intros H. unfold Spec.dump_md, Spec.gen_rdf, triple_walk. rewrite H.
  split; [reflexivity|]. destruct (Spec.gen_each _ _ _); reflexivity.
Qed.

(** C4, as the code has it.  When the filter that [isError] reads is
    installed where ERROR records reach it and an ERROR record is issued at
    any point of the run, [isError] holds from then on; [dump_md] then writes
    no page and issues its warning instead, and [gen_rdf] writes no file and,
    when its walk over the entities completes, issues its warning instead. *)
Theorem tainted_run_writes_nothing (serialize : Graph -> outcome string) (cfg : Config)
    (self : Spec_obj) (args : Args) (r0 : logging.Root) (recs : list logging.LogRecord)
    (e : logging.LogRecord) (files : list (string * string)) :
  sink_listens r0 = true -> e ∈ recs -> logging.levelno e = logging.ERROR ->
  let w := {| root := issue_all recs r0; written := files |} in
  isError (root w) = true
  /\ Spec.dump_md cfg self args w
     = {| root := issue (root w) (warning_record "Spec" abort_dump_md); written := files |}
  /\ written (Spec.gen_rdf serialize cfg self args w).2 = files
  /\ (forall g, triple_walk cfg self = Ok g ->
      Spec.gen_rdf serialize cfg self args w
      = (Ok tt,
         {| root := issue (root w) (warning_record "Spec" abort_gen_rdf); written := files |})).
Proof.
  intros Hs Hin He. cbn zeta.
  assert (isError (issue_all recs r0) = true) as Herr
    by (apply (isError_tainted recs e); assumption).
  destruct (gate_closed serialize cfg self args
              {| root := issue_all recs r0; written := files |} Herr) as [Hd Hg].
  split; [exact Herr|]. split; [exact Hd|]. split.
  - rewrite Hg. destruct (triple_walk cfg self); reflexivity.
  - intros g Hwalk. rewrite Hg, Hwalk. reflexivity.
Qed.

Lemma tainted_run_writes_nothing_witness :
  Spec.dump_md example_config (Spec.__init__ "") sample_args
    {| root := issue_all [error_record "SpecClass" "duplicate"] example_root; written := [] |}
  = {| root :=
         issue (issue_all [error_record "SpecClass" "duplicate"] example_root)
           (warning_record "Spec" abort_dump_md);
       written := [] |}.
Proof.
  apply (tainted_run_writes_nothing (fun _ => Ok "ttl") example_config (Spec.__init__ "")
           sample_args example_root [error_record "SpecClass" "duplicate"]
           (error_record "SpecClass" "duplicate") []).
  - reflexivity.
  - apply list_elem_of_singleton. reflexivity.
  - reflexivity.
Defined.

(** C4 as stated fails twice.  With no [ErrorFoundFilter] on the root logger
    an ERROR is issued and yet the page and the graph file are written, with
    no warning.  With the filter installed and [id] declared with no value,
    [dump_md] is stopped but [gen_rdf] raises in its walk: it writes nothing
    and issues no warning. *)
Lemma tainted_run_counterexample :
  sample_run status_twice bare_root
  = Some ([logging.ERROR], ["out/core/Classes/Widget.md"], Ok tt, [("out/tst.ttl", "ttl")],
          ["Widget: Metadata key 'Status' already exists"])
  /\ sample_run id_declared_empty example_root
     = Some ([logging.ERROR], [], Raise IndexError, [],
             ["Widget: Metadata key 'id' already exists"]).
Proof. split; vm_compute; reflexivity. Qed.

(** ** Where construction returns *)

(** With usage names that are all different the constructor of a Class
    returns: the exception of C6 needs a repeated name. *)
Lemma props_loop_distinct (cfg : Config) (self_name : string) (props_list : list PropUsage)
    (_key : option string) (properties : dict (dict (list string))) (r : logging.Root) :
  NoDup (map pu_name props_list) ->
  (forall p, p ∈ map pu_name props_list -> dict_mem p properties = false) ->
  exists properties' r',
    SpecClass.props_loop cfg self_name props_list _key properties r = (Ok properties', r').
Proof.
  revert _key properties r.
  induction props_list as [|prop l IH]; intros _key properties r Hnd Hfresh;
    cbn [SpecClass.props_loop].
  - eauto.
  - cbn [map] in Hnd, Hfresh. apply NoDup_cons in Hnd as [Hnotin Hnd].
    destruct (SpecClass.avline_loop _ _ _ _ _ _) as [[_key' subprops] r1].
    rewrite (Hfresh (pu_name prop)) by (left; reflexivity).
    apply IH; [exact Hnd|].
    intros p Hp. rewrite dict_mem_set.
    destruct (String.eqb_spec p (pu_name prop)) as [->|_]; [contradiction|].
    apply Hfresh. right. exact Hp.
Qed.

Lemma SpecClass_init_distinct (cfg : Config) (spec : Spec_obj)
    (namespace_name name summary description : string) (metadata : list NameValues)
    (props : list PropUsage) (r : logging.Root) :
  NoDup (map pu_name props) ->
  exists c spec' r',
    SpecClass.__init__ cfg spec namespace_name name summary description metadata props r
    = (Ok (c, spec'), r').
Proof.
  intros Hnd. rewrite SpecClass_init_eq. cbn zeta.
  destruct (props_loop_distinct cfg name props None []
              (extract_metadata_of cfg SpecClass.logger namespace_name name [] metadata r).2
              Hnd (fun _ _ => eq_refl)) as (properties & r' & ->).
  eauto.
Qed.

(** * Further properties of the code *)

(** ** [union_dict] *)

Lemma dict_set_absent {V : Type} (k : string) (v : V) (d : dict V) :
  dict_mem k d = false -> dict_set k v d = d ++ [(k, v)].
Proof.
  unfold dict_mem. induction d as [|[k0 v0] d IH]; cbn [dict_set dict_get app].
  - reflexivity.
  - destruct (String.eqb k k0); [discriminate|]. intros H. rewrite (IH H). reflexivity.
Qed.

Lemma dict_get_app {V : Type} (k : string) (d e : dict V) :
  dict_get k (d ++ e) = match dict_get k d with Some v => Some v | None => dict_get k e end.
Proof.
  induction d as [|[k0 v0] d IH]; cbn [app dict_get]; [reflexivity|].
  destruct (String.eqb k k0); [reflexivity|exact IH].
Qed.

Lemma union_dict_extends {V : Type} (d1 d2 : dict V) :
  exists added : dict V,
    union_dict d1 d2 = d1 ++ added
    /\ forall k v, (k, v) ∈ added -> dict_mem k d1 = false /\ (k, v) ∈ d2.
Proof.
  unfold union_dict. revert d1.
  induction d2 as [|[k2 v2] d2 IH]; intros d1; cbn [fold_left fst snd].
  - exists []. rewrite app_nil_r. split; [reflexivity|]. intros k v H. inversion H.
  - destruct (dict_mem k2 d1) eqn:Hm; cbn [negb].
    + destruct (IH d1) as (added & Heq & Hadd). exists added. split; [exact Heq|].
      intros k v H. destruct (Hadd k v H) as [? ?]. split; [assumption|].
      right. assumption.
    + rewrite (dict_set_absent _ _ _ Hm).
      destruct (IH (d1 ++ [(k2, v2)])) as (added & Heq & Hadd).
      exists ((k2, v2) :: added). rewrite Heq, <- app_assoc. split; [reflexivity|].
      intros k v [[= -> ->]|H]%elem_of_cons.
      * split; [exact Hm|]. left.
      * destruct (Hadd k v H) as [Hk Hin]. split; [|right; exact Hin].
        unfold dict_mem in *. rewrite dict_get_app in Hk.
        destruct (dict_get k d1); [discriminate|reflexivity].
Qed.

(** X1.  [union_dict(d1, d2)] leaves the entries of [d1] and their order as
    they are and only appends entries of [d2] whose key [d1] lacked; a key
    reads the value of [d1] when [d1] has it and the value of [d2] otherwise;
    merging the same defaults a second time changes nothing. *)
Theorem union_dict_gives_priority {V : Type} (d1 d2 : dict V) :
  (exists added : dict V,
     union_dict d1 d2 = d1 ++ added
     /\ forall k v, (k, v) ∈ added -> dict_mem k d1 = false /\ (k, v) ∈ d2)
  /\ (forall k,
        dict_get k (union_dict d1 d2)
        = match dict_get k d1 with Some v => Some v | None => dict_get k d2 end)
  /\ union_dict (union_dict d1 d2) d2 = union_dict d1 d2.
Proof.
  split; [apply union_dict_extends|]. split; [intros k; apply dict_get_union|].
  assert (forall (d2 d : dict V),
            (forall k, dict_mem k d2 = true -> dict_mem k d = true) -> union_dict d d2 = d)
    as Hfix.
  { clear. intros d2 d. unfold union_dict.
    induction d2 as [|[k2 v2] d2 IH]; intros Hall; cbn [fold_left fst snd]; [reflexivity|].
    rewrite (Hall k2) by (unfold dict_mem; cbn; rewrite String.eqb_refl; reflexivity).
    cbn [negb]. apply IH. intros k Hk.
    destruct (String.eqb_spec k k2) as [->|Hne].
    - apply Hall. unfold dict_mem. cbn. rewrite String.eqb_refl. reflexivity.
    - apply Hall. unfold dict_mem in *. cbn.
      destruct (String.eqb_spec k k2); [contradiction|exact Hk]. }
  apply Hfix. intros k Hk. unfold dict_mem in *. rewrite dict_get_union.
  destruct (dict_get k d1); [reflexivity|exact Hk].
Qed.

(** ** [ErrorFoundFilter] and [isError] *)

Lemma isError_handlers_below (lvl : Z) (hs : list logging.Handler) :
  lvl < logging.ERROR ->
  isError_handlers hs = false ->
  isError_handlers (map (logging.call_handler lvl) hs) = false.
Proof.
  intros Hlvl. induction hs as [|h hs IH]; cbn [map isError_handlers]; [reflexivity|].
  rewrite call_handler_first.
  destruct (first_ErrorFoundFilter (logging.filters h)) as [w|]; [|exact IH].
  intros Hw. apply Z.leb_gt in Hw. apply Z.leb_gt.
  destruct (_ && _); [|assumption]. destruct (Z.ltb_spec w lvl); lia.
Qed.

Lemma isError_log_below (nm m : string) (lvl : Z) (r : logging.Root) :
  lvl < logging.ERROR -> isError r = false -> isError (logging.log nm lvl m r) = false.
Proof.
  unfold isError, logging.log. cbn [logging.handlers]. intros Hlvl H.
  destruct (logging.root_level r <=? lvl); [|assumption].
  apply isError_handlers_below; assumption.
Qed.

(** X2.  [isError] is sticky: [ErrorFoundFilter.filter] only ever raises
    [worst_level], so once [isError()] is true it stays true whatever is
    logged afterwards, at any level and on any configuration. *)
Theorem isError_is_sticky (recs : list logging.LogRecord) (r : logging.Root) :
  isError r = true -> isError (issue_all recs r) = true.
Proof. apply isError_issue_all. Qed.

Lemma isError_is_sticky_witness :
  isError
    (issue_all [warning_record "Spec" abort_dump_md]
       (issue example_root (error_record "SpecClass" "duplicate"))) = true.
Proof.
  apply (isError_is_sticky [warning_record "Spec" abort_dump_md]
           (issue example_root (error_record "SpecClass" "duplicate"))).
  reflexivity.
Defined.

(** X3.  On a root logger whose [ErrorFoundFilter] is reached by ERROR
    records and has not seen an error yet, a run that logs at ERROR and below
    ends with [isError()] true exactly when one of its records was an ERROR:
    warnings, the two abort warnings included, never taint a run. *)
Theorem isError_iff_error_issued (recs : list logging.LogRecord) (r : logging.Root) :
  sink_listens r = true -> isError r = false ->
  (forall rec, rec ∈ recs -> logging.levelno rec <= logging.ERROR) ->
  (isError (issue_all recs r) = true
   <-> exists e, e ∈ recs /\ logging.levelno e = logging.ERROR).
Proof.
  intros Hs H0 Hle. split.
  - revert r Hs H0. induction recs as [|rec recs IH]; intros r Hs H0 Herr.
    + cbn in Herr. congruence.
    + destruct (Z.eq_dec (logging.levelno rec) logging.ERROR) as [He|Hne].
      * exists rec. split; [left|exact He].
      * cbn [issue_all fold_left] in Herr. fold (issue_all recs) in Herr.
        destruct (IH (fun x Hx => Hle x (list_elem_of_further _ _ _ Hx)) (issue r rec))
          as (e & Hin & He).
        -- unfold issue. rewrite sink_listens_log. exact Hs.
        -- apply isError_log_below; [|exact H0].
           specialize (Hle rec (list_elem_of_here _ _)). lia.
        -- exact Herr.
        -- exists e. split; [right; exact Hin|exact He].
  - intros (e & Hin & He). apply (isError_tainted recs e); assumption.
Qed.

Lemma isError_iff_error_issued_witness :
  isError (issue_all [warning_record "Spec" abort_gen_rdf] example_root) = true
  <-> exists e, e ∈ [warning_record "Spec" abort_gen_rdf] /\ logging.levelno e = logging.ERROR.
Proof.
  apply (isError_iff_error_issued [warning_record "Spec" abort_gen_rdf] example_root).
  - reflexivity.
  - reflexivity.
  - intros rec ->%list_elem_of_singleton. vm_compute. discriminate.
Defined.

(** ** References and identifiers *)

Lemma gen_rdf_id_plain (cfg : Config) (r N : string) :
  count_colons r = 0%nat -> gen_rdf_id cfg r N = generated_id cfg N r.
Proof.
  intros H. unfold gen_rdf_id, generated_id. rewrite (re_split_colon_plain r H). reflexivity.
Qed.

Lemma gen_rdf_id_pair (cfg : Config) (a b N : string) :
  count_colons a = 0%nat -> count_colons b = 0%nat ->
  gen_rdf_id cfg (a +:+ ":" +:+ b) N = generated_id cfg a b.
Proof.
  intros Ha Hb. unfold gen_rdf_id, generated_id.
  rewrite (re_split_colon_first a b Ha), (re_split_colon_plain b Hb). reflexivity.
Qed.

(** X4.  References point at declared nodes.  For an entity named [name] in
    namespace [ns], neither with a colon, that declares no [id] of its own,
    the [id] entry is exactly what the resolver returns for the short
    reference [name] used inside [ns], and for the qualified reference
    [ns:name] used in any namespace. *)
Theorem reference_resolves_to_id (cfg : Config) (spec : Spec_obj)
    (namespace_name name summary description : string) (metadata : list NameValues)
    (props : list PropUsage) (entries : list EntryLine) (r : logging.Root) :
  count_colons namespace_name = 0%nat -> count_colons name = 0%nat ->
  last_named nv_name "id" metadata = None ->
  (forall N,
     gen_rdf_id cfg (namespace_name +:+ ":" +:+ name) N = gen_rdf_id cfg name namespace_name)
  /\ dict_get "id"
       (prop_metadata
          (SpecProperty.__init__ cfg namespace_name name summary description metadata r).1)
     = Some [gen_rdf_id cfg name namespace_name]
  /\ dict_get "id"
       (voc_metadata
          (SpecVocab.__init__ cfg namespace_name name summary description metadata entries
             r).1)
     = Some [gen_rdf_id cfg name namespace_name]
  /\ (forall c spec' r',
        SpecClass.__init__ cfg spec namespace_name name summary description metadata props r
        = (Ok (c, spec'), r') ->
        dict_get "id" (cls_metadata c) = Some [gen_rdf_id cfg name namespace_name]).
Proof.
  intros Hns Hname Hnone.
  assert (forall logger,
            dict_get "id"
              (extract_metadata_of cfg logger namespace_name name [] metadata r).1
            = Some [gen_rdf_id cfg name namespace_name]) as Hid.
  { intros logger. rewrite extract_metadata_of_get, Hnone, (gen_rdf_id_plain _ _ _ Hname).
    reflexivity. }
  split; [|split; [|split]].
  - intros N. rewrite (gen_rdf_id_pair _ _ _ _ Hns Hname), (gen_rdf_id_plain _ _ _ Hname).
    reflexivity.
  - rewrite SpecProperty_init_eq. apply Hid.
  - rewrite SpecVocab_init_eq. apply Hid.
  - intros c spec' r'. rewrite SpecClass_init_eq. cbn zeta.
    destruct (SpecClass.props_loop _ _ _ _ _ _) as [[properties|e] r2]; [|discriminate].
    intros [= <- _ _]. apply Hid.
Qed.

Lemma reference_resolves_to_id_witness :
  dict_get "id"
    (prop_metadata
       (SpecProperty.__init__ example_config "core" "hasPart" "" "" domain_and_range
          example_root).1)
  = Some [gen_rdf_id example_config "hasPart" "core"].
Proof.
  apply (reference_resolves_to_id example_config (Spec.__init__ "") "core" "hasPart" "" ""
           domain_and_range [] [] example_root); reflexivity.
Defined.

(** ** Construction without duplicates *)

Lemma count_named_elem {A : Type} (key : A -> string) (k : string) (items : list A) :
  (1 <= count_named key k items)%nat <-> k ∈ map key items.
Proof.
  induction items as [|item items IH]; cbn [count_named map].
  - split; [lia|inversion 1].
  - rewrite elem_of_cons, <- IH. destruct (String.eqb (key item) k) eqn:E.
    + apply String.eqb_eq in E. split; [left; congruence|lia].
    + apply String.eqb_neq in E. split; [right; lia|intros [?|?]; [congruence|lia]].
Qed.

Lemma count_named_NoDup {A : Type} (key : A -> string) (k : string) (items : list A) :
  NoDup (map key items) -> (count_named key k items <= 1)%nat.
Proof.
  induction items as [|item items IH]; cbn [count_named map]; [lia|].
  intros [Hnotin Hnd]%NoDup_cons. specialize (IH Hnd).
  destruct (String.eqb (key item) k) eqn:E; [|lia].
  apply String.eqb_eq in E.
  destruct (count_named key k items) eqn:Hc; [lia|].
  exfalso. apply Hnotin. rewrite E. apply count_named_elem. lia.
Qed.

(** A filling loop over names that are all new leaves the logger alone. *)
Lemma fill_loop_silent {A V : Type} (key : A -> string) (val : A -> V) (logger : string)
    (message : string -> string) (items : list A) (d : dict V) (r : logging.Root) :
  NoDup (map key items) ->
  (forall k, k ∈ map key items -> dict_mem k d = false) ->
  (fill_loop key val logger message items d r).2 = r.
Proof.
  intros Hnd Hfresh.
  destruct (fill_loop_issues key val logger message items d r) as (recs & Hr & _ & _ & Hnone).
  rewrite Hr, Hnone; [reflexivity| |].
  - intros k Hk. apply Hfresh, count_named_elem, Hk.
  - intros k. apply count_named_NoDup, Hnd.
Qed.

Lemma avline_loop_fill (self_name name : string) (avline_list : list NameValues)
    (_key : option string) (subprops_dict : dict (list string)) (r : logging.Root) :
  let filled :=
    fill_loop nv_name nv_values SpecClass.logger
      (fun k => self_name +:+ ": Attribute key '" +:+ k
                  +:+ "' already exists in data property '" +:+ name +:+ "'")
      avline_list subprops_dict r in
  SpecClass.avline_loop self_name name avline_list _key subprops_dict r
  = (match last avline_list with Some avline => Some (nv_name avline) | None => _key end,
     filled.1, filled.2).
Proof.
  cbn zeta. revert _key subprops_dict r.
  induction avline_list as [|avline l IH]; intros _key d r;
    cbn [SpecClass.avline_loop fill_loop].
  - reflexivity.
  - rewrite IH. f_equal. f_equal. destruct l as [|avline' l]; [reflexivity|].
    change (last (avline :: avline' :: l)) with (last (avline' :: l)).
    destruct (last (avline' :: l)) eqn:E; [reflexivity|].
    apply last_None in E. discriminate.
Qed.

Lemma extract_metadata_of_silent (cfg : Config) (logger namespace_name self_name : string)
    (mdata_list : list NameValues) (r : logging.Root) :
  NoDup (map nv_name mdata_list) -> "id" ∉ map nv_name mdata_list ->
  (extract_metadata_of cfg logger namespace_name self_name [] mdata_list r).2 = r.
Proof.
  intros Hnd Hid. unfold extract_metadata_of. rewrite metadata_loop_fill.
  pose proof (fill_loop_silent nv_name nv_values logger
                (fun k => self_name +:+ ": Metadata key '" +:+ k +:+ "' already exists")
                mdata_list
                (dict_set "id" [id_metadata_prefix cfg +:+ namespace_name +:+ "#" +:+ self_name]
                   []) r Hnd) as Hsilent.
  destruct (fill_loop _ _ _ _ _ _ _) as [m r']. cbn [snd] in *. apply Hsilent.
  intros k Hk. unfold dict_mem. cbn [dict_set dict_get].
  destruct (String.eqb_spec k "id") as [->|_]; [contradiction|reflexivity].
Qed.

Lemma props_loop_silent (cfg : Config) (self_name : string) (props_list : list PropUsage)
    (_key : option string) (properties : dict (dict (list string))) (r : logging.Root) :
  NoDup (map pu_name props_list) ->
  (forall p, p ∈ map pu_name props_list -> dict_mem p properties = false) ->
  (forall blk, blk ∈ props_list -> NoDup (map nv_name (pu_values blk))) ->
  exists properties',
    SpecClass.props_loop cfg self_name props_list _key properties r = (Ok properties', r).
Proof.
  revert _key properties r.
  induction props_list as [|prop l IH]; intros _key properties r Hnd Hfresh Hblk;
    cbn [SpecClass.props_loop].
  - eauto.
  - cbn [map] in Hnd, Hfresh. apply NoDup_cons in Hnd as [Hnotin Hnd].
    rewrite avline_loop_fill. cbn zeta.
    rewrite fill_loop_silent;
      [|apply Hblk; left|intros k _; reflexivity].
    rewrite (Hfresh (pu_name prop)) by (left; reflexivity).
    apply IH; [exact Hnd| |].
    + intros p Hp. rewrite dict_mem_set.
      destruct (String.eqb_spec p (pu_name prop)) as [->|_]; [contradiction|].
      apply Hfresh. right. exact Hp.
    + intros blk Hin. apply Hblk. right. exact Hin.
Qed.

(** X5.  No false alarms.  When the metadata keys are all different and none
    is [id], constructing a Property leaves the root logger exactly as it
    was; so does a Vocabulary whose entry names are all different; and a Class
    whose usage names are all different, each block with attribute names all
    different, is constructed without an exception and without a record. *)
Theorem clean_construction_is_silent (cfg : Config) (spec : Spec_obj)
    (namespace_name name summary description : string) (metadata : list NameValues)
    (props : list PropUsage) (entries : list EntryLine) (r : logging.Root) :
  NoDup (map nv_name metadata) -> "id" ∉ map nv_name metadata ->
  (SpecProperty.__init__ cfg namespace_name name summary description metadata r).2 = r
  /\ (NoDup (map en_name entries) ->
      (SpecVocab.__init__ cfg namespace_name name summary description metadata entries r).2
      = r)
  /\ (NoDup (map pu_name props) ->
      (forall blk, blk ∈ props -> NoDup (map nv_name (pu_values blk))) ->
      exists c spec',
        SpecClass.__init__ cfg spec namespace_name name summary description metadata props r
        = (Ok (c, spec'), r)).
Proof.
  intros Hnd Hid.
  assert (forall logger,
            (extract_metadata_of cfg logger namespace_name name [] metadata r).2 = r) as Hm
    by (intros logger; apply extract_metadata_of_silent; assumption).
  split; [|split].
  - rewrite SpecProperty_init_eq. apply Hm.
  - intros He. rewrite SpecVocab_init_eq. cbn zeta. cbn [snd].
    rewrite fill_loop_silent; [apply Hm|exact He|intros k _; reflexivity].
  - intros Hp Hblk. rewrite SpecClass_init_eq. cbn zeta. rewrite Hm.
    destruct (props_loop_silent cfg name props None [] r Hp (fun _ _ => eq_refl) Hblk)
      as [properties ->].
    eauto.
Qed.

Lemma clean_construction_is_silent_witness :
  (SpecProperty.__init__ example_config "core" "hasPart" "" "" domain_and_range
     example_root).2 = example_root.
Proof.
  apply (clean_construction_is_silent example_config (Spec.__init__ "") "core" "hasPart" ""
           "" domain_and_range [] [] example_root).
  all: apply (bool_decide_unpack _); vm_compute; exact I.
Defined.

(** ** Registration: accounts and order *)

Lemma dict_set_length {V : Type} (k : string) (v : V) (d : dict V) :
  length (dict_set k v d) = if dict_mem k d then length d else S (length d).
Proof.
  unfold dict_mem. induction d as [|[k0 v0] d IH]; cbn [dict_set dict_get length].
  - reflexivity.
  - destruct (String.eqb k k0); cbn [length]; [reflexivity|].
    rewrite IH. destruct (dict_get k d); reflexivity.
Qed.

(** Every item of a filling loop either adds a key or issues one ERROR. *)
Lemma fill_loop_account {A V : Type} (key : A -> string) (val : A -> V) (logger : string)
    (message : string -> string) (items : list A) (d : dict V) (r : logging.Root) :
  exists recs : list logging.LogRecord,
    (fill_loop key val logger message items d r).2 = issue_all recs r
    /\ (forall rec, rec ∈ recs -> exists k, rec = error_record logger (message k))
    /\ (length recs + length (fill_loop key val logger message items d r).1
        = length d + length items)%nat.
Proof.
  revert d r. induction items as [|item items IH]; intros d r; cbn [fill_loop].
  - exists []. split; [reflexivity|]. split; [intros rec H; inversion H|cbn; lia].
  - destruct (IH (dict_set (key item) (val item) d)
                (if dict_mem (key item) d
                 then logging.error logger (message (key item)) r else r))
      as (recs & Hr & Hall & Hlen).
    rewrite dict_set_length in Hlen.
    destruct (dict_mem (key item) d).
    + exists (error_record logger (message (key item)) :: recs).
      split; [rewrite Hr; reflexivity|]. split.
      * intros rec [->|H]%elem_of_cons; [eauto|auto].
      * cbn [length]. lia.
    + exists recs. split; [exact Hr|]. split; [exact Hall|]. cbn [length]. lia.
Qed.

(** X6.  The accounts of [add_namespace] balance: every class, property and
    vocabulary handed over is either a new key of its map or one ERROR
    record of the logger [Spec], a namespace name already registered is one
    more, and nothing else is logged. *)
Theorem add_namespace_accounts (self : Spec_obj) (name : string)
    (classes : list SpecClass_obj) (properties : list SpecProperty_obj)
    (vocabs : list SpecVocab_obj) (r : logging.Root) :
  let built := Spec.add_namespace self name classes properties vocabs r in
  exists (el : Namespace_el) (recs : list logging.LogRecord),
    dict_get name (namespaces built.1) = Some el
    /\ built.2 = issue_all recs r
    /\ (forall rec, rec ∈ recs ->
          logging.name rec = "Spec" /\ logging.levelno rec = logging.ERROR)
    /\ (length recs + length (ns_classes el) + length (ns_properties el)
        + length (ns_vocabs el)
        = length classes + length properties + length vocabs
          + (if dict_mem name (namespaces self) then 1 else 0))%nat.
Proof.
  cbn zeta. rewrite add_namespace_eq. cbn zeta. cbn [fst snd namespaces].
  destruct (fill_loop_account cls_name (fun c => c) Spec.logger
              (fun _ => Spec.duplicate_class) classes [] r) as (rc & Hrc & Hac & Hlc).
  set (cs := fill_loop cls_name _ _ _ classes [] r) in *.
  destruct (fill_loop_account prop_name (fun p => p) Spec.logger
              (fun _ => Spec.duplicate_prop) properties [] cs.2) as (rp & Hrp & Hap & Hlp).
  set (ps := fill_loop prop_name _ _ _ properties [] cs.2) in *.
  destruct (fill_loop_account voc_name (fun v => v) Spec.logger
              (fun _ => Spec.duplicate_vocab) vocabs [] ps.2) as (rv & Hrv & Hav & Hlv).
  set (vs := fill_loop voc_name _ _ _ vocabs [] ps.2) in *.
  assert (forall (m : string -> string) (recs0 : list logging.LogRecord),
            (forall rec, rec ∈ recs0 -> exists k, rec = error_record Spec.logger (m k)) ->
            forall rec, rec ∈ recs0 ->
              logging.name rec = "Spec" /\ logging.levelno rec = logging.ERROR) as Hshape.
  { intros m recs0 H rec Hin. destruct (H rec Hin) as [k ->]. split; reflexivity. }
  eexists.
  exists (rc ++ rp ++ rv
          ++ if dict_mem name (namespaces self)
             then [error_record Spec.logger
                     ("Namespace with name: " +:+ name +:+ " already exists")]
             else []).
  split; [apply dict_get_set_eq|]. cbn [ns_classes ns_properties ns_vocabs].
  split; [|split].
  - rewrite !issue_all_app, <- Hrc, <- Hrp, <- Hrv.
    destruct (dict_mem name (namespaces self)); reflexivity.
  - intros rec [H|[H|[H|H]%elem_of_app]%elem_of_app]%elem_of_app.
    + exact (Hshape _ _ Hac rec H).
    + exact (Hshape _ _ Hap rec H).
    + exact (Hshape _ _ Hav rec H).
    + destruct (dict_mem name (namespaces self)); [|inversion H].
      apply list_elem_of_singleton in H as ->. split; reflexivity.
  - rewrite !length_app. cbn [length] in *.
    destruct (dict_mem name (namespaces self)); cbn [length]; lia.
Qed.

Lemma first_seen_snoc (l : list string) (x : string) :
  first_seen (l ++ [x]) = if decide (x ∈ l) then first_seen l else first_seen l ++ [x].
Proof.
  unfold first_seen. rewrite reverse_app.
  change (reverse [x] ++ reverse l) with (x :: reverse l). cbn [remove_dups].
  destruct (decide (x ∈ l)) as [Hin|Hnin];
    destruct (decide_rel elem_of x (reverse l)) as [Hr|Hr].
  - reflexivity.
  - exfalso. apply Hr, elem_of_reverse, Hin.
  - exfalso. apply Hnin, elem_of_reverse, Hr.
  - apply reverse_cons.
Qed.

Lemma elem_of_first_seen (l : list string) (x : string) : x ∈ first_seen l <-> x ∈ l.
Proof. unfold first_seen. rewrite elem_of_reverse, elem_of_remove_dups, elem_of_reverse. tauto. Qed.

Lemma dict_keys_set_first_seen {V : Type} (k : string) (v : V) (d : dict V) (l : list string) :
  dict_keys d = first_seen l -> dict_keys (dict_set k v d) = first_seen (l ++ [k]).
Proof.
  intros Hd. rewrite dict_keys_set, first_seen_snoc, Hd.
  destruct (dict_mem k d) eqn:Hm.
  - rewrite decide_True; [reflexivity|].
    apply elem_of_first_seen. rewrite <- Hd. apply dict_mem_keys, Hm.
  - rewrite decide_False; [reflexivity|].
    intros Hin. apply elem_of_first_seen in Hin. rewrite <- Hd in Hin.
    apply dict_mem_keys in Hin. congruence.
Qed.

Lemma fill_loop_keys {A V : Type} (key : A -> string) (val : A -> V) (logger : string)
    (message : string -> string) (items : list A) (d : dict V) (r : logging.Root)
    (l : list string) :
  dict_keys d = first_seen l ->
  dict_keys (fill_loop key val logger message items d r).1 = first_seen (l ++ map key items).
Proof.
  revert d r l. induction items as [|item items IH]; intros d r l Hd; cbn [fill_loop map].
  - rewrite app_nil_r. exact Hd.
  - rewrite (IH _ _ (l ++ [key item])).
    + rewrite <- app_assoc. reflexivity.
    + apply dict_keys_set_first_seen, Hd.
Qed.

Lemma union_dict_keys {V : Type} (d1 d2 : dict V) (l : list string) :
  dict_keys d1 = first_seen l ->
  dict_keys (union_dict d1 d2) = first_seen (l ++ dict_keys d2).
Proof.
  unfold union_dict, dict_keys. revert d1 l.
  induction d2 as [|[k2 v2] d2 IH]; intros d1 l Hd; cbn [fold_left map fst snd].
  - rewrite app_nil_r. exact Hd.
  - rewrite (IH _ (l ++ [k2])).
    + rewrite <- app_assoc. reflexivity.
    + destruct (dict_mem k2 d1) eqn:Hm; cbn [negb].
      * rewrite first_seen_snoc, decide_True; [exact Hd|].
        apply elem_of_first_seen. rewrite <- Hd. apply (dict_mem_keys k2 d1), Hm.
      * apply (dict_keys_set_first_seen k2 v2 d1 l), Hd.
Qed.

(** X7.  The maps of a namespace list their names in the order of first
    declaration, although a name declared again holds the later object; a
    namespace registered again keeps its first position, a new one goes
    last.  This is the order in which pages are written and triples
    contributed. *)
Theorem registration_order (self : Spec_obj) (name : string)
    (classes : list SpecClass_obj) (properties : list SpecProperty_obj)
    (vocabs : list SpecVocab_obj) (r : logging.Root) :
  let built := Spec.add_namespace self name classes properties vocabs r in
  (exists el : Namespace_el,
     dict_get name (namespaces built.1) = Some el
     /\ dict_keys (ns_classes el) = first_seen (map cls_name classes)
     /\ dict_keys (ns_properties el) = first_seen (map prop_name properties)
     /\ dict_keys (ns_vocabs el) = first_seen (map voc_name vocabs))
  /\ dict_keys (namespaces built.1)
     = if dict_mem name (namespaces self) then dict_keys (namespaces self)
       else dict_keys (namespaces self) ++ [name].
Proof.
  cbn zeta. rewrite add_namespace_eq. cbn zeta. cbn [fst snd namespaces]. split.
  - eexists. split; [apply dict_get_set_eq|]. cbn [ns_classes ns_properties ns_vocabs].
    repeat split; apply (fill_loop_keys _ _ _ _ _ [] _ []); reflexivity.
  - apply dict_keys_set.
Qed.

(** ** The order of keys *)

Lemma props_loop_keys_order (cfg : Config) (self_name : string) (props_list : list PropUsage)
    (_key : option string) (properties properties' : dict (dict (list string)))
    (r r' : logging.Root) (l : list string) :
  SpecClass.props_loop cfg self_name props_list _key properties r = (Ok properties', r') ->
  dict_keys properties = first_seen l ->
  dict_keys properties' = first_seen (l ++ map pu_name props_list).
Proof.
  revert _key properties r l.
  induction props_list as [|prop rest IH]; intros _key properties r l;
    cbn [SpecClass.props_loop map].
  - intros [= <- _] Hd. rewrite app_nil_r. exact Hd.
  - destruct (SpecClass.avline_loop _ _ _ _ _ _) as [[_key' subprops] r1].
    assert (forall r2,
              SpecClass.props_loop cfg self_name rest _key'
                (dict_set (pu_name prop) (union_dict subprops (property_defaults cfg)) properties)
                r2 = (Ok properties', r') ->
              dict_keys properties = first_seen l ->
              dict_keys properties' = first_seen (l ++ pu_name prop :: map pu_name rest))
      as Hstep.
    { intros r2 Hloop Hd. rewrite (IH _ _ _ (l ++ [pu_name prop]) Hloop).
      - rewrite <- app_assoc. reflexivity.
      - apply dict_keys_set_first_seen, Hd. }
    destruct (dict_mem (pu_name prop) properties).
    + destruct _key' as [k|]; [apply Hstep|discriminate].
    + apply Hstep.
Qed.

Lemma extract_metadata_of_keys (cfg : Config) (logger namespace_name self_name : string)
    (mdata_list : list NameValues) (r : logging.Root) :
  dict_keys (extract_metadata_of cfg logger namespace_name self_name [] mdata_list r).1
  = first_seen ("id" :: map nv_name mdata_list ++ dict_keys (metadata_defaults cfg)).
Proof.
  unfold extract_metadata_of. rewrite metadata_loop_fill.
  pose proof (fill_loop_keys nv_name nv_values logger
                (fun k => self_name +:+ ": Metadata key '" +:+ k +:+ "' already exists")
                mdata_list
                (dict_set "id" [id_metadata_prefix cfg +:+ namespace_name +:+ "#" +:+ self_name]
                   []) r ["id"] eq_refl) as Hkeys.
  destruct (fill_loop _ _ _ _ _ _ _) as [m r']. cbn [fst] in *.
  rewrite (union_dict_keys m (metadata_defaults cfg) _ Hkeys), <- app_assoc. reflexivity.
Qed.

(** X8.  The keys of an entity come in a fixed order, the one its page lists
    them in: the metadata has [id] first, then the declared keys in the order
    of their first declaration, then the defaults that were not declared, in
    the order of the defaults table; the entries of a Vocabulary and the
    usage blocks of a Class come in the order of first declaration. *)
Theorem entity_key_order (cfg : Config) (spec : Spec_obj)
    (namespace_name name summary description : string) (metadata : list NameValues)
    (props : list PropUsage) (entries : list EntryLine) (r : logging.Root) :
  let order :=
    first_seen ("id" :: map nv_name metadata ++ dict_keys (metadata_defaults cfg)) in
  dict_keys
    (prop_metadata
       (SpecProperty.__init__ cfg namespace_name name summary description metadata r).1)
  = order
  /\ (let v :=
        (SpecVocab.__init__ cfg namespace_name name summary description metadata entries
           r).1 in
      dict_keys (voc_metadata v) = order
      /\ dict_keys (voc_entries v) = first_seen (map en_name entries))
  /\ (forall c spec' r',
        SpecClass.__init__ cfg spec namespace_name name summary description metadata props r
        = (Ok (c, spec'), r') ->
        dict_keys (cls_metadata c) = order
        /\ dict_keys (cls_properties c) = first_seen (map pu_name props)).
Proof.
  cbn zeta. split; [|split].
  - rewrite SpecProperty_init_eq. apply extract_metadata_of_keys.
  - rewrite SpecVocab_init_eq. cbn zeta. cbn [fst voc_metadata voc_entries].
    split; [apply extract_metadata_of_keys|].
    apply (fill_loop_keys _ _ _ _ _ [] _ []). reflexivity.
  - intros c spec' r'. rewrite SpecClass_init_eq. cbn zeta.
    destruct (SpecClass.props_loop _ _ _ _ _ _) as [[properties|e] r2] eqn:Hloop;
      [|discriminate].
    intros [= <- _ _]. cbn [cls_metadata cls_properties].
    split; [apply extract_metadata_of_keys|].
    apply (props_loop_keys_order _ _ _ _ _ _ _ _ [] Hloop). reflexivity.
Qed.

(** ** The attributes of a usage block *)

Lemma fill_loop_dict_pure {A V : Type} (key : A -> string) (val : A -> V) (logger : string)
    (message : string -> string) (items : list A) (d : dict V) (r1 r2 : logging.Root) :
  (fill_loop key val logger message items d r1).1
  = (fill_loop key val logger message items d r2).1.
Proof.
  revert d r1 r2. induction items as [|item items IH]; intros d r1 r2; cbn [fill_loop];
    [reflexivity|apply IH].
Qed.

Lemma props_loop_get (cfg : Config) (self_name : string) (props_list : list PropUsage)
    (_key : option string) (properties properties' : dict (dict (list string)))
    (r r' : logging.Root) (p : string) :
  SpecClass.props_loop cfg self_name props_list _key properties r = (Ok properties', r') ->
  match last_named pu_name p props_list with
  | Some blk =>
      exists sub, dict_get p properties' = Some sub
                  /\ forall a, dict_get a sub = usage_attribute cfg blk a
  | None => dict_get p properties' = dict_get p properties
  end.
Proof.
  revert _key properties r.
  induction props_list as [|prop rest IH]; intros _key properties r;
    cbn [SpecClass.props_loop last_named].
  - intros [= <- _]. reflexivity.
  - rewrite avline_loop_fill. cbn zeta.
    set (filled := fill_loop nv_name nv_values SpecClass.logger _ (pu_values prop) [] r).
    set (sub1 := union_dict filled.1 (property_defaults cfg)).
    assert (forall a, dict_get a sub1 = usage_attribute cfg prop a) as Hsub.
    { intros a. unfold sub1, filled, usage_attribute. rewrite dict_get_union, fill_loop_get.
      destruct (last_named nv_name a (pu_values prop)); reflexivity. }
    assert (forall _key' r2,
              SpecClass.props_loop cfg self_name rest _key'
                (dict_set (pu_name prop) sub1 properties) r2 = (Ok properties', r') ->
              match
                match last_named pu_name p rest with
                | Some found => Some found
                | None => if String.eqb (pu_name prop) p then Some prop else None
                end
              with
              | Some blk =>
                  exists sub, dict_get p properties' = Some sub
                              /\ forall a, dict_get a sub = usage_attribute cfg blk a
              | None => dict_get p properties' = dict_get p properties
              end) as Hstep.
    { intros _key' r2 Hloop. specialize (IH _ _ _ Hloop).
      destruct (last_named pu_name p rest); [exact IH|].
      rewrite IH, dict_get_set, (String.eqb_sym p).
      destruct (String.eqb (pu_name prop) p); [eauto|reflexivity]. }
    destruct (dict_mem (pu_name prop) properties).
    + destruct (match last (pu_values prop) with Some _ => _ | None => _key end);
        [apply Hstep|discriminate].
    + apply Hstep.
Qed.

(** X9.  The usage blocks of a constructed Class: a name that no block
    declares is absent; a declared name holds the attributes of its LAST
    block, each attribute with the values of its last line in that block,
    and the default value of every attribute the block lacks. *)
Theorem class_usage_attributes (cfg : Config) (spec spec' : Spec_obj)
    (namespace_name name summary description : string) (metadata : list NameValues)
    (props : list PropUsage) (r r' : logging.Root) (c : SpecClass_obj) (p : string) :
  SpecClass.__init__ cfg spec namespace_name name summary description metadata props r
  = (Ok (c, spec'), r') ->
  match last_named pu_name p props with
  | Some blk =>
      exists sub, dict_get p (cls_properties c) = Some sub
                  /\ forall a, dict_get a sub = usage_attribute cfg blk a
  | None => dict_get p (cls_properties c) = None
  end.
Proof.
  rewrite SpecClass_init_eq. cbn zeta.
  destruct (SpecClass.props_loop _ _ _ _ _ _) as [[properties|e] r2] eqn:Hloop; [|discriminate].
  intros [= <- _ _]. cbn [cls_properties].
  exact (props_loop_get _ _ _ _ _ _ _ _ p Hloop).
Qed.

Lemma class_usage_attributes_witness :
  exists sub, dict_get "label" (cls_properties (class_using_label "ClassA")) = Some sub
              /\ forall a, dict_get a sub
                           = usage_attribute example_config
                               {| pu_name := "label";
                                  pu_values :=
                                    [{| nv_name := "type"; nv_values := ["xsd:string"] |}] |}
                               a.
Proof.
  apply (class_usage_attributes example_config (Spec.__init__ "")
           (index_of_label ["core:ClassA"]) "core" "ClassA" "" "" [] label_usage
           example_root example_root (class_using_label "ClassA") "label" eq_refl).
Defined.

(** ** When the constructor of a Class raises *)

Lemma props_loop_bound (cfg : Config) (self_name : string) (props_list : list PropUsage)
    (k : string) (properties : dict (dict (list string))) (r : logging.Root) :
  exists properties' r',
    SpecClass.props_loop cfg self_name props_list (Some k) properties r = (Ok properties', r').
Proof.
  revert k properties r.
  induction props_list as [|prop rest IH]; intros k properties r; cbn [SpecClass.props_loop].
  - eauto.
  - rewrite avline_loop_fill. cbn zeta.
    destruct (last (pu_values prop)) as [line|]; destruct (dict_mem (pu_name prop) properties);
      apply IH.
Qed.

Lemma props_loop_unbound (cfg : Config) (self_name : string) (props_list : list PropUsage)
    (properties : dict (dict (list string))) (r : logging.Root) :
  ((SpecClass.props_loop cfg self_name props_list None properties r).1
   = Raise UnboundLocalError
   <-> exists before again after,
         props_list = before ++ again :: after
         /\ (forall blk, blk ∈ before ++ [again] -> pu_values blk = [])
         /\ (dict_mem (pu_name again) properties = true
             \/ pu_name again ∈ map pu_name before))
  /\ (forall e, (SpecClass.props_loop cfg self_name props_list None properties r).1 = Raise e ->
        e = UnboundLocalError).
Proof.
  revert properties r.
  induction props_list as [|prop rest IH]; intros properties r; cbn [SpecClass.props_loop].
  - split; [|discriminate]. split; [discriminate|].
    intros (before & again & after & Heq & _). destruct before; discriminate.
  - rewrite avline_loop_fill. cbn zeta.
    destruct (pu_values prop) as [|line lines] eqn:Hvals.
    + (* no attribute line: [_key] stays unbound *)
      cbn [last fill_loop fst snd].
      destruct (dict_mem (pu_name prop) properties) eqn:Hm.
      * split; [|intros e [= <-]; reflexivity]. split; [|reflexivity]. intros _.
        exists [], prop, rest. split; [reflexivity|]. split; [|left; exact Hm].
        intros blk ->%list_elem_of_singleton. exact Hvals.
      * destruct (IH (dict_set (pu_name prop) (union_dict [] (property_defaults cfg))
                        properties) r) as [Hiff Honly].
        split; [|exact Honly]. rewrite Hiff. split.
        -- intros (before & again & after & -> & Hempty & Hdup).
           exists (prop :: before), again, after. split; [reflexivity|]. split.
           ++ intros blk [->|Hin]%elem_of_cons; [exact Hvals|apply Hempty, Hin].
           ++ cbn [map]. rewrite dict_mem_set in Hdup.
              destruct Hdup as [Hdup|Hdup]; [|right; right; exact Hdup].
              apply orb_true_iff in Hdup as [Heq|Hmem].
              ** apply String.eqb_eq in Heq. rewrite Heq. right. left.
              ** left. exact Hmem.
        -- intros (before & again & after & Heq & Hempty & Hdup).
           destruct before as [|b0 before].
           ++ cbn [app] in Heq. injection Heq as <- <-.
              destruct Hdup as [Hdup|Hdup]; [congruence|inversion Hdup].
           ++ cbn [app] in Heq. injection Heq as <- ->.
              exists before, again, after. split; [reflexivity|]. split.
              ** intros blk Hin. apply Hempty. right. exact Hin.
              ** rewrite dict_mem_set. cbn [map] in Hdup.
                 destruct Hdup as [Hdup|[->|Hdup]%elem_of_cons].
                 --- left. rewrite Hdup. apply orb_true_r.
                 --- left. rewrite String.eqb_refl. reflexivity.
                 --- right. exact Hdup.
    + (* an attribute line binds [_key] for good *)
      assert (exists k, last (line :: lines) = Some k) as [k ->].
      { destruct (last (line :: lines)) eqn:E; [eauto|].
        apply last_None in E. discriminate. }
      set (properties1 := dict_set _ _ properties).
      assert (forall r1,
                exists properties' r',
                  SpecClass.props_loop cfg self_name rest (Some (nv_name k)) properties1 r1
                  = (Ok properties', r')) as Hok
        by (intros r1; apply props_loop_bound).
      assert (forall res : outcome (dict (dict (list string))) * logging.Root,
                (exists properties' r', res = (Ok properties', r')) ->
                (res.1 = Raise UnboundLocalError
                 <-> exists before again after,
                       prop :: rest = before ++ again :: after
                       /\ (forall blk, blk ∈ before ++ [again] -> pu_values blk = [])
                       /\ (dict_mem (pu_name again) properties = true
                           \/ pu_name again ∈ map pu_name before))
                /\ (forall e, res.1 = Raise e -> e = UnboundLocalError)) as Hres.
      { intros res (properties' & r' & ->). cbn [fst].
        split; [|discriminate]. split; [discriminate|].
        intros (before & again & after & Heq & Hempty & _). exfalso.
        assert (pu_values prop = []) as Hnil.
        { apply Hempty. destruct before as [|b0 before]; cbn [app] in *.
          - injection Heq as <- _. left.
          - injection Heq as <- _. left. }
        congruence. }
      destruct (dict_mem (pu_name prop) properties); apply Hres, Hok.
Qed.

(** X10.  The only exception the constructor of a Class can raise is
    [UnboundLocalError], and it raises it exactly when a usage name comes a
    second time while no usage block so far, the second one included, has an
    attribute line; one attribute line anywhere earlier makes every later
    duplicate an ordinary ERROR record. *)
Theorem class_construction_raises_iff (cfg : Config) (spec : Spec_obj)
    (namespace_name name summary description : string) (metadata : list NameValues)
    (props : list PropUsage) (r : logging.Root) :
  let built :=
    SpecClass.__init__ cfg spec namespace_name name summary description metadata props r in
  (built.1 = Raise UnboundLocalError <-> unbound_duplicate props)
  /\ (forall e, built.1 = Raise e -> e = UnboundLocalError).
Proof.
  cbn zeta. rewrite SpecClass_init_eq. cbn zeta.
  destruct (props_loop_unbound cfg name props []
              (extract_metadata_of cfg SpecClass.logger namespace_name name [] metadata r).2)
    as [Hiff Honly].
  destruct (SpecClass.props_loop _ _ _ _ _ _) as [[properties|e] r2]; cbn [fst] in *.
  - split; [|discriminate]. split; [discriminate|].
    intros (before & again & after & Heq & Hempty & Hdup). exfalso.
    assert (Ok properties = Raise UnboundLocalError) as Habs
      by (apply Hiff; exists before, again, after; auto).
    discriminate.
  - assert (e = UnboundLocalError) as -> by (apply Honly; reflexivity).
    split; [|intros e0 [= <-]; reflexivity]. unfold unbound_duplicate. split.
    + intros _. destruct (proj1 Hiff eq_refl)
        as (before & again & after & Heq & Hempty & [Hdup|Hdup]);
        [discriminate|eauto 10].
    + reflexivity.
Qed.

(** ** The walk of [gen_rdf] *)

Lemma SpecClass_gen_rdf_additive (cfg : Config) (c : SpecClass_obj) :
  additive (SpecClass._gen_rdf cfg c).
Proof.
  unfold additive, SpecClass._gen_rdf.
  destruct (dict_get "id" (cls_metadata c)) as [[|id more]|]; [right; eauto| |right; eauto].
  left. eexists. intros g. rewrite fold_add. unfold add. rewrite <- (assoc_L (∪)). reflexivity.
Qed.

Lemma SpecProperty_gen_rdf_additive (cfg : Config) (p : SpecProperty_obj) :
  additive (SpecProperty._gen_rdf cfg p).
Proof.
  unfold additive, SpecProperty._gen_rdf.
  destruct (dict_get "id" (prop_metadata p)) as [[|id more]|]; [right; eauto| |right; eauto].
  left. eexists. intros g. rewrite !fold_add.
  replace (if SpecProperty.nature_truthy (prop_metadata p)
           then add (URIRef id, RDF_type, OWL "ObjectProperty") g
           else add (URIRef id, RDF_type, OWL "DatatypeProperty") g)
    with (g ∪ {[ (URIRef id, RDF_type,
                  OWL (if SpecProperty.nature_truthy (prop_metadata p)
                       then "ObjectProperty" else "DatatypeProperty")) ]})
    by (destruct (SpecProperty.nature_truthy (prop_metadata p)); reflexivity).
  rewrite <- !(assoc_L (∪)). reflexivity.
Qed.

Lemma SpecVocab_gen_rdf_additive (v : SpecVocab_obj) : additive (SpecVocab._gen_rdf v).
Proof.
  unfold additive, SpecVocab._gen_rdf.
  destruct (dict_get "id" (voc_metadata v)) as [[|id more]|]; [right; eauto| |right; eauto].
  left. eexists. intros g. reflexivity.
Qed.

Lemma gen_each_additive {A : Type} (gen : A -> Graph -> outcome Graph) (objs : list A) :
  (forall obj, additive (gen obj)) -> additive (Spec.gen_each gen objs).
Proof.
  intros Hgen. induction objs as [|obj objs IH]; cbn [Spec.gen_each].
  - left. exists ∅. intros g. rewrite (right_id_L ∅ (∪)). reflexivity.
  - destruct (Hgen obj) as [[T HT]|[e He]].
    + destruct IH as [[T' HT']|[e' He']].
      * left. exists (T ∪ T'). intros g. rewrite HT, HT', (assoc_L (∪)). reflexivity.
      * right. exists e'. intros g. rewrite HT, He'. reflexivity.
    + right. exists e. intros g. rewrite He. reflexivity.
Qed.

Lemma gen_rdf_namespace_additive (cfg : Config) (namespace : Namespace_el) :
  additive (Spec.gen_rdf_namespace cfg namespace).
Proof.
  unfold Spec.gen_rdf_namespace.
  destruct (gen_each_additive (SpecClass._gen_rdf cfg) (dict_values (ns_classes namespace))
              (SpecClass_gen_rdf_additive cfg)) as [[T1 H1]|[e He]];
    [|right; exists e; intros g; rewrite He; reflexivity].
  destruct (gen_each_additive (SpecProperty._gen_rdf cfg)
              (dict_values (ns_properties namespace))
              (SpecProperty_gen_rdf_additive cfg)) as [[T2 H2]|[e He]];
    [|right; exists e; intros g; rewrite H1, He; reflexivity].
  destruct (gen_each_additive SpecVocab._gen_rdf (dict_values (ns_vocabs namespace))
              SpecVocab_gen_rdf_additive) as [[T3 H3]|[e He]];
    [|right; exists e; intros g; rewrite H1, H2, He; reflexivity].
  left. exists (T1 ∪ T2 ∪ T3). intros g. rewrite H1, H2, H3, !(assoc_L (∪)). reflexivity.
Qed.

Lemma walk_additive (cfg : Config) (self : Spec_obj) :
  additive (Spec.gen_each (Spec.gen_rdf_namespace cfg) (dict_values (namespaces self))).
Proof. apply gen_each_additive, gen_rdf_namespace_additive. Qed.

(** X11.  The walk of [gen_rdf] only adds triples, and the same ones whatever
    graph it starts from: run from a graph [g] it ends with [g] and the
    triples of the walk from the empty graph; running it again on its own
    result changes nothing. *)
Theorem walk_only_adds (cfg : Config) (self : Spec_obj) (g g' : Graph) :
  Spec.gen_each (Spec.gen_rdf_namespace cfg) (dict_values (namespaces self)) g = Ok g' ->
  g ⊆ g'
  /\ (exists T, triple_walk cfg self = Ok T /\ g' = g ∪ T)
  /\ Spec.gen_each (Spec.gen_rdf_namespace cfg) (dict_values (namespaces self)) g' = Ok g'.
Proof.
  unfold triple_walk. destruct (walk_additive cfg self) as [[T HT]|[e He]].
  - rewrite !HT. intros [= <-]. split; [set_solver|]. split.
    + exists T. split; [f_equal; set_solver|reflexivity].
    + f_equal. set_solver.
  - rewrite He. discriminate.
Qed.

Lemma walk_only_adds_witness :
  ({[ (URIRef "urn:s", RDF_type, OWL "Class") ]} : Graph)
    ⊆ {[ (URIRef "urn:s", RDF_type, OWL "Class") ]}
      ∪ {[ (URIRef "https://example.org/core#Widget", RDF_type, OWL "Class") ]}
      ∪ {[ (URIRef "https://example.org/core#Widget", RDFS_subClassOf,
            URIRef "https://example.org/base#Thing") ]}
  /\ Spec.gen_each (Spec.gen_rdf_namespace example_config)
       (dict_values (namespaces registry_with_widget))
       ({[ (URIRef "urn:s", RDF_type, OWL "Class") ]}
          ∪ {[ (URIRef "https://example.org/core#Widget", RDF_type, OWL "Class") ]}
          ∪ {[ (URIRef "https://example.org/core#Widget", RDFS_subClassOf,
                URIRef "https://example.org/base#Thing") ]})
     = Ok ({[ (URIRef "urn:s", RDF_type, OWL "Class") ]}
             ∪ {[ (URIRef "https://example.org/core#Widget", RDF_type, OWL "Class") ]}
             ∪ {[ (URIRef "https://example.org/core#Widget", RDFS_subClassOf,
                   URIRef "https://example.org/base#Thing") ]}).
Proof.
  pose proof (walk_only_adds example_config registry_with_widget
                {[ (URIRef "urn:s", RDF_type, OWL "Class") ]}
                ({[ (URIRef "urn:s", RDF_type, OWL "Class") ]}
                   ∪ {[ (URIRef "https://example.org/core#Widget", RDF_type, OWL "Class") ]}
                   ∪ {[ (URIRef "https://example.org/core#Widget", RDFS_subClassOf,
                         URIRef "https://example.org/base#Thing") ]})
                eq_refl) as (Hsub & _ & Hagain).
  split; [exact Hsub|exact Hagain].
Defined.

Lemma gen_each_content {A : Type} (gen : A -> Graph -> outcome Graph) (objs : list A)
    (g T : Graph) (t : Triple) :
  (forall obj, additive (gen obj)) ->
  Spec.gen_each gen objs g = Ok T ->
  (t ∈ T <-> t ∈ g \/ exists obj Tobj, obj ∈ objs /\ gen obj ∅ = Ok Tobj /\ t ∈ Tobj).
Proof.
  intros Hgen. revert g. induction objs as [|obj objs IH]; intros g; cbn [Spec.gen_each].
  - intros [= <-]. split; [left; assumption|].
    intros [?|(obj & Tobj & Hin & _)]; [assumption|inversion Hin].
  - destruct (Hgen obj) as [[To HTo]|[e He]]; [|rewrite He; discriminate].
    rewrite HTo. intros Hrest. rewrite (IH _ Hrest). rewrite elem_of_union. split.
    + intros [[Hg|Ho]|(obj' & Tobj & Hin & Hgen' & Ht)].
      * left. exact Hg.
      * right. exists obj, (∅ ∪ To). split; [left|]. split; [apply HTo|set_solver].
      * right. exists obj', Tobj. split; [right; exact Hin|]. split; assumption.
    + intros [Hg|(obj' & Tobj & [->|Hin]%elem_of_cons & Hgen' & Ht)].
      * left. left. exact Hg.
      * left. right. rewrite HTo in Hgen'. injection Hgen' as <-. set_solver.
      * right. exists obj', Tobj. split; [exact Hin|]. split; assumption.
Qed.

Lemma walk_triples_from_entities (cfg : Config) (self : Spec_obj) (T : Graph) (t : Triple) :
  triple_walk cfg self = Ok T ->
  (t ∈ T
   <-> exists namespace, namespace ∈ dict_values (namespaces self)
       /\ ((exists c Tc, c ∈ dict_values (ns_classes namespace)
                         /\ SpecClass._gen_rdf cfg c ∅ = Ok Tc /\ t ∈ Tc)
           \/ (exists p Tp, p ∈ dict_values (ns_properties namespace)
                            /\ SpecProperty._gen_rdf cfg p ∅ = Ok Tp /\ t ∈ Tp)
           \/ (exists v Tv, v ∈ dict_values (ns_vocabs namespace)
                            /\ SpecVocab._gen_rdf v ∅ = Ok Tv /\ t ∈ Tv))).
Proof.
  unfold triple_walk. intros Hwalk.
  rewrite (gen_each_content _ _ _ _ t (gen_rdf_namespace_additive cfg) Hwalk).
  assert (forall namespace Tn,
            Spec.gen_rdf_namespace cfg namespace ∅ = Ok Tn ->
            (t ∈ Tn
             <-> (exists c Tc, c ∈ dict_values (ns_classes namespace)
                               /\ SpecClass._gen_rdf cfg c ∅ = Ok Tc /\ t ∈ Tc)
                 \/ (exists p Tp, p ∈ dict_values (ns_properties namespace)
                                  /\ SpecProperty._gen_rdf cfg p ∅ = Ok Tp /\ t ∈ Tp)
                 \/ (exists v Tv, v ∈ dict_values (ns_vocabs namespace)
                                  /\ SpecVocab._gen_rdf v ∅ = Ok Tv /\ t ∈ Tv))) as Hns.
  { intros namespace Tn. unfold Spec.gen_rdf_namespace.
    destruct (Spec.gen_each (SpecClass._gen_rdf cfg) _ ∅) as [T1|e] eqn:H1; [|discriminate].
    destruct (Spec.gen_each (SpecProperty._gen_rdf cfg) _ T1) as [T2|e] eqn:H2; [|discriminate].
    intros H3.
    rewrite (gen_each_content _ _ _ _ t SpecVocab_gen_rdf_additive H3).
    rewrite (gen_each_content _ _ _ _ t (SpecProperty_gen_rdf_additive cfg) H2).
    rewrite (gen_each_content _ _ _ _ t (SpecClass_gen_rdf_additive cfg) H1).
    rewrite elem_of_empty. tauto. }
  rewrite elem_of_empty. split.
  - intros [[]|(namespace & Tn & Hin & Hgen & Ht)].
    exists namespace. split; [exact Hin|]. apply (Hns _ _ Hgen), Ht.
  - intros (namespace & Hin & Hcontrib). right.
    destruct (gen_rdf_namespace_additive cfg namespace) as [[Tn HTn]|[e He]].
    + exists namespace, (∅ ∪ Tn). split; [exact Hin|]. split; [apply HTn|].
      apply (Hns _ _ (HTn ∅)), Hcontrib.
    + exfalso. revert Hwalk Hin He. generalize (∅ : Graph).
      induction (dict_values (namespaces self)) as [|n0 l IH]; intros g0 Hwalk Hin He.
      * inversion Hin.
      * cbn [Spec.gen_each] in Hwalk. apply elem_of_cons in Hin as [->|Hin].
        -- rewrite He in Hwalk. discriminate.
        -- destruct (Spec.gen_rdf_namespace cfg n0 g0) as [g1|e1]; [|discriminate].
           exact (IH g1 Hwalk Hin He).
Qed.

(** X12.  When the walk of [gen_rdf] completes, its graph holds exactly the
    triples that the registered entities contribute one by one: a triple is in
    it precisely when some class, property or vocabulary of some registered
    namespace asserts it on its own. *)
Theorem walk_content (cfg : Config) (self : Spec_obj) (T : Graph) (t : Triple) :
  triple_walk cfg self = Ok T ->
  (t ∈ T
   <-> exists namespace, namespace ∈ dict_values (namespaces self)
       /\ ((exists c Tc, c ∈ dict_values (ns_classes namespace)
                         /\ SpecClass._gen_rdf cfg c ∅ = Ok Tc /\ t ∈ Tc)
           \/ (exists p Tp, p ∈ dict_values (ns_properties namespace)
                            /\ SpecProperty._gen_rdf cfg p ∅ = Ok Tp /\ t ∈ Tp)
           \/ (exists v Tv, v ∈ dict_values (ns_vocabs namespace)
                            /\ SpecVocab._gen_rdf v ∅ = Ok Tv /\ t ∈ Tv))).
Proof. apply walk_triples_from_entities. Qed.

Lemma walk_content_witness :
  (URIRef "https://example.org/core#Widget", RDF_type, OWL "Class")
    ∈ ({[ (URIRef "https://example.org/core#Widget", RDF_type, OWL "Class") ]}
         ∪ {[ (URIRef "https://example.org/core#Widget", RDFS_subClassOf,
               URIRef "https://example.org/base#Thing") ]} : Graph)
  <-> exists namespace, namespace ∈ dict_values (namespaces registry_with_widget)
      /\ ((exists c Tc, c ∈ dict_values (ns_classes namespace)
                        /\ SpecClass._gen_rdf example_config c ∅ = Ok Tc
                        /\ (URIRef "https://example.org/core#Widget", RDF_type, OWL "Class")
                             ∈ Tc)
          \/ (exists p Tp, p ∈ dict_values (ns_properties namespace)
                           /\ SpecProperty._gen_rdf example_config p ∅ = Ok Tp
                           /\ (URIRef "https://example.org/core#Widget", RDF_type, OWL "Class")
                                ∈ Tp)
          \/ (exists v Tv, v ∈ dict_values (ns_vocabs namespace)
                           /\ SpecVocab._gen_rdf v ∅ = Ok Tv
                           /\ (URIRef "https://example.org/core#Widget", RDF_type, OWL "Class")
                                ∈ Tv)).
Proof.
  apply (walk_content example_config registry_with_widget). reflexivity.
Defined.



(** X14.  A constructed Vocabulary whose [id] entry has a first value [id]
    contributes exactly [(id, rdf:type, owl:Class)], whatever its entries;
    [id] is [<prefix><namespace>#<name>] unless a declaration named [id]
    replaced it. *)
Theorem vocabulary_triple (cfg : Config)
    (namespace_name name summary description : string) (metadata : list NameValues)
    (entries : list EntryLine) (r : logging.Root) (id : string) :
  let v :=
    (SpecVocab.__init__ cfg namespace_name name summary description metadata entries r).1 in
  head (dict_get_default "id" [] (voc_metadata v)) = Some id ->
  (forall g : Graph,
     SpecVocab._gen_rdf v g = Ok (g ∪ {[ (URIRef id, RDF_type, OWL "Class") ]}))
  /\ (last_named nv_name "id" metadata = None -> id = generated_id cfg namespace_name name).
Proof.
  cbn zeta. rewrite SpecVocab_init_eq. cbn zeta. cbn [fst voc_metadata]. intros Hid.
  destruct (first_value_get _ _ _ Hid) as [more Hget]. split.
  - intros g. unfold SpecVocab._gen_rdf. cbn [voc_metadata]. rewrite Hget. reflexivity.
  - intros Hnone. rewrite extract_metadata_of_get, Hnone in Hget. cbn in Hget. congruence.
Qed.

Lemma vocabulary_triple_witness :
  SpecVocab._gen_rdf
    (SpecVocab.__init__ example_config "core" "Level" "" "" [] low_twice example_root).1 ∅
  = Ok (∅ ∪ {[ (URIRef "https://example.org/core#Level", RDF_type, OWL "Class") ]}).
Proof.
  apply (vocabulary_triple example_config "core" "Level" "" "" [] low_twice example_root
           "https://example.org/core#Level" eq_refl).
Defined.

(** ** The pages of [dump_md] *)

Lemma fold_write_paths {A : Type} (f : A -> World -> World) (path : A -> string)
    (xs : list A) (w : World) :
  (forall x, exists content, forall w, f x w = write_file (path x) content w) ->
  root (fold_left (fun w x => f x w) xs w) = root w
  /\ map fst (written (fold_left (fun w x => f x w) xs w)) = map fst (written w) ++ map path xs.
Proof.
  intros Hf. revert w. induction xs as [|x xs IH]; intros w; cbn [fold_left map].
  - rewrite app_nil_r. split; reflexivity.
  - destruct (Hf x) as [content Hx]. rewrite Hx.
    destruct (IH (write_file (path x) content w)) as [Hroot Hpaths].
    split; [exact Hroot|]. rewrite Hpaths. cbn [write_file written].
    rewrite map_app, <- app_assoc. reflexivity.
Qed.

Lemma dump_md_namespace_paths (cfg : Config) (self : Spec_obj) (args : Args) (w : World)
    (namespace : Namespace_el) :
  root (Spec.dump_md_namespace cfg self args w namespace) = root w
  /\ map fst (written (Spec.dump_md_namespace cfg self args w namespace))
     = map fst (written w) ++ namespace_pages args namespace.
Proof.
  unfold Spec.dump_md_namespace, namespace_pages.
  destruct (fold_write_paths (fun c w => SpecClass.dump_md cfg c args w) (class_page args)
              (dict_values (ns_classes namespace)) w) as [Hr1 Hp1].
  { intros c. eexists. intros w0. reflexivity. }
  set (w1 := fold_left _ (dict_values (ns_classes namespace)) w) in *.
  destruct (fold_write_paths (fun p w => SpecProperty.dump_md cfg self p args w)
              (property_page args) (dict_values (ns_properties namespace)) w1) as [Hr2 Hp2].
  { intros p. eexists. intros w0. reflexivity. }
  set (w2 := fold_left _ (dict_values (ns_properties namespace)) w1) in *.
  destruct (fold_write_paths (fun v w => SpecVocab.dump_md cfg v args w) (vocab_page args)
              (dict_values (ns_vocabs namespace)) w2) as [Hr3 Hp3].
  { intros v. eexists. intros w0. reflexivity. }
  split; [congruence|]. rewrite Hp3, Hp2, Hp1, <- !app_assoc. reflexivity.
Qed.

(** X15.  While [isError()] is false, [dump_md] leaves the root logger alone
    and writes one page for every registered entity and nothing else, at
    [<out>/<namespace>/Classes|Properties|Vocabularies/<name>.md] with the
    namespace the entity was constructed in: namespace after namespace in
    the order of registration, and in each the classes, then the properties,
    then the vocabularies, in the order of their maps. *)
Theorem dump_md_writes_pages_in_order (cfg : Config) (self : Spec_obj) (args : Args)
    (w : World) :
  isError (root w) = false ->
  root (Spec.dump_md cfg self args w) = root w
  /\ map fst (written (Spec.dump_md cfg self args w))
     = map fst (written w) ++ registry_pages args self.
Proof.
  intros Herr. unfold Spec.dump_md, registry_pages. rewrite Herr. clear Herr. revert w.
  induction (dict_values (namespaces self)) as [|namespace l IH]; intros w;
    cbn [fold_left map concat].
  - rewrite app_nil_r. split; reflexivity.
  - destruct (dump_md_namespace_paths cfg self args w namespace) as [Hr Hp].
    destruct (IH (Spec.dump_md_namespace cfg self args w namespace)) as [Hr' Hp'].
    split; [congruence|]. rewrite Hp', Hp, <- app_assoc. reflexivity.
Qed.

Lemma dump_md_writes_pages_in_order_witness :
  map fst
    (written
       (Spec.dump_md example_config registry_with_widget sample_args
          {| root := bare_root; written := [] |}))
  = map fst (written {| root := bare_root; written := [] |})
    ++ registry_pages sample_args registry_with_widget.
Proof.
  apply (dump_md_writes_pages_in_order example_config registry_with_widget sample_args
           {| root := bare_root; written := [] |}).
  reflexivity.
Defined.

(** ** When the walk completes *)

Lemma has_id_get (metadata : dict (list string)) :
  has_id metadata <-> exists id more, dict_get "id" metadata = Some (id :: more).
Proof.
  unfold has_id, dict_get_default.
  destruct (dict_get "id" metadata) as [[|id more]|]; cbn.
  - split; [intros [? ?]; discriminate|intros (? & ? & ?); discriminate].
  - split; eauto.
  - split; [intros [? ?]; discriminate|intros (? & ? & ?); discriminate].
Qed.

Lemma gen_each_completes {A : Type} (gen : A -> Graph -> outcome Graph) (objs : list A)
    (g : Graph) :
  (forall obj, additive (gen obj)) ->
  ((exists T, Spec.gen_each gen objs g = Ok T)
   <-> forall obj, obj ∈ objs -> exists To, gen obj ∅ = Ok To).
Proof.
  intros Hgen. revert g. induction objs as [|obj objs IH]; intros g; cbn [Spec.gen_each].
  - split; [intros _ obj Hin; inversion Hin|eauto].
  - destruct (Hgen obj) as [[To HTo]|[e He]].
    + rewrite HTo, IH. split.
      * intros Hall x [->|Hin]%elem_of_cons; [rewrite HTo; eauto|auto].
      * intros Hall x Hin. apply Hall. right. exact Hin.
    + rewrite He. split; [intros [T ?]; discriminate|].
      intros Hall. destruct (Hall obj (list_elem_of_here _ _)) as [To HTo].
      rewrite He in HTo. discriminate.
Qed.

Lemma class_gen_completes (cfg : Config) (c : SpecClass_obj) (g : Graph) :
  (exists T, SpecClass._gen_rdf cfg c g = Ok T) <-> has_id (cls_metadata c).
Proof.
  rewrite has_id_get. unfold SpecClass._gen_rdf.
  destruct (dict_get "id" (cls_metadata c)) as [[|id more]|].
  - split; [intros [? ?]; discriminate|intros (? & ? & ?); discriminate].
  - split; eauto.
  - split; [intros [? ?]; discriminate|intros (? & ? & ?); discriminate].
Qed.

Lemma property_gen_completes (cfg : Config) (p : SpecProperty_obj) (g : Graph) :
  (exists T, SpecProperty._gen_rdf cfg p g = Ok T) <-> has_id (prop_metadata p).
Proof.
  rewrite has_id_get. unfold SpecProperty._gen_rdf.
  destruct (dict_get "id" (prop_metadata p)) as [[|id more]|].
  - split; [intros [? ?]; discriminate|intros (? & ? & ?); discriminate].
  - split; eauto.
  - split; [intros [? ?]; discriminate|intros (? & ? & ?); discriminate].
Qed.

Lemma vocab_gen_completes (v : SpecVocab_obj) (g : Graph) :
  (exists T, SpecVocab._gen_rdf v g = Ok T) <-> has_id (voc_metadata v).
Proof.
  rewrite has_id_get. unfold SpecVocab._gen_rdf.
  destruct (dict_get "id" (voc_metadata v)) as [[|id more]|].
  - split; [intros [? ?]; discriminate|intros (? & ? & ?); discriminate].
  - split; eauto.
  - split; [intros [? ?]; discriminate|intros (? & ? & ?); discriminate].
Qed.

Lemma namespace_gen_completes (cfg : Config) (namespace : Namespace_el) (g : Graph) :
  (exists T, Spec.gen_rdf_namespace cfg namespace g = Ok T)
  <-> (forall c, c ∈ dict_values (ns_classes namespace) -> has_id (cls_metadata c))
      /\ (forall p, p ∈ dict_values (ns_properties namespace) -> has_id (prop_metadata p))
      /\ (forall v, v ∈ dict_values (ns_vocabs namespace) -> has_id (voc_metadata v)).
Proof.
  pose proof (fun g0 => gen_each_completes (SpecClass._gen_rdf cfg)
                          (dict_values (ns_classes namespace)) g0
                          (SpecClass_gen_rdf_additive cfg)) as Hc.
  pose proof (fun g0 => gen_each_completes (SpecProperty._gen_rdf cfg)
                          (dict_values (ns_properties namespace)) g0
                          (SpecProperty_gen_rdf_additive cfg)) as Hp.
  pose proof (fun g0 => gen_each_completes SpecVocab._gen_rdf
                          (dict_values (ns_vocabs namespace)) g0
                          SpecVocab_gen_rdf_additive) as Hv.
  unfold Spec.gen_rdf_namespace. split.
  - intros [T HT].
    destruct (Spec.gen_each (SpecClass._gen_rdf cfg) _ g) as [g1|e] eqn:H1; [|discriminate].
    destruct (Spec.gen_each (SpecProperty._gen_rdf cfg) _ g1) as [g2|e] eqn:H2;
      [|discriminate].
    split; [|split].
    + intros c Hin. apply (class_gen_completes cfg c ∅), (proj1 (Hc g)); eauto.
    + intros p Hin. apply (property_gen_completes cfg p ∅), (proj1 (Hp g1)); eauto.
    + intros v Hin. apply (vocab_gen_completes v ∅), (proj1 (Hv g2)); eauto.
  - intros (Hcs & Hps & Hvs).
    destruct (proj2 (Hc g)) as [g1 ->].
    { intros c Hin. apply class_gen_completes, Hcs, Hin. }
    destruct (proj2 (Hp g1)) as [g2 ->].
    { intros p Hin. apply property_gen_completes, Hps, Hin. }
    apply Hv. intros v Hin. apply vocab_gen_completes, Hvs, Hin.
Qed.

(** X16.  The walk of [gen_rdf] completes exactly when the [id] entry of
    every registered class, property and vocabulary has a first value;
    otherwise [gen_rdf] raises the exception of the walk, before it checks
    [isError()], and writes no file. *)
Theorem walk_completes_iff (serialize : Graph -> outcome string) (cfg : Config)
    (self : Spec_obj) (args : Args) (w : World) :
  ((exists T, triple_walk cfg self = Ok T)
   <-> forall namespace, namespace ∈ dict_values (namespaces self) ->
         (forall c, c ∈ dict_values (ns_classes namespace) -> has_id (cls_metadata c))
         /\ (forall p, p ∈ dict_values (ns_properties namespace) -> has_id (prop_metadata p))
         /\ (forall v, v ∈ dict_values (ns_vocabs namespace) -> has_id (voc_metadata v)))
  /\ (forall e, triple_walk cfg self = Raise e ->
        (Spec.gen_rdf serialize cfg self args w).1 = Raise e
        /\ written (Spec.gen_rdf serialize cfg self args w).2 = written w).
Proof.
  split.
  - unfold triple_walk.
    rewrite (gen_each_completes _ _ _ (gen_rdf_namespace_additive cfg)). split.
    + intros Hall namespace Hin. apply (namespace_gen_completes cfg namespace ∅), Hall, Hin.
    + intros Hall namespace Hin. apply namespace_gen_completes, Hall, Hin.
  - intros e He. unfold Spec.gen_rdf. unfold triple_walk in He. rewrite He.
    split; reflexivity.
Qed.

(** * The error check without an [ErrorFoundFilter] *)

Lemma registry_fold_paths (cfg : Config) (self : Spec_obj) (args : Args)
    (namespaces : list Namespace_el) (w : World) :
  root (fold_left (Spec.dump_md_namespace cfg self args) namespaces w) = root w
  /\ map fst (written (fold_left (Spec.dump_md_namespace cfg self args) namespaces w))
     = map fst (written w) ++ concat (map (namespace_pages args) namespaces).
Proof.
  revert w. induction namespaces as [|namespace l IH]; intros w; cbn [fold_left map concat].
  - rewrite app_nil_r. split; reflexivity.
  - destruct (dump_md_namespace_paths cfg self args w namespace) as [Hr Hp].
    destruct (IH (Spec.dump_md_namespace cfg self args w namespace)) as [Hr' Hp'].
    split; [congruence|]. rewrite Hp', Hp, <- app_assoc. reflexivity.
Qed.

(** C10, as the code has it.  With no [ErrorFoundFilter] on any handler of
    the root logger, [isError] is false whatever records were issued, so the
    error check stops neither step.  [dump_md] renders every registered
    entity, one page each at its own path, without a warning.  [gen_rdf],
    when its walk over the entities completes, opens [tst.ttl]: it writes the
    serialized graph to it when the serializer returns it, and leaves the
    file empty and raises when the serializer raises. *)
Theorem without_filter_outputs_are_produced (serialize : Graph -> outcome string)
    (cfg : Config) (self : Spec_obj) (args : Args) (r0 : logging.Root)
    (recs : list logging.LogRecord) (files : list (string * string)) :
  has_ErrorFoundFilter (logging.handlers r0) = false ->
  let w := {| root := issue_all recs r0; written := files |} in
  isError (root w) = false
  /\ Spec.dump_md cfg self args w
     = fold_left (Spec.dump_md_namespace cfg self args) (dict_values (namespaces self)) w
  /\ root (Spec.dump_md cfg self args w) = root w
  /\ map fst (written (Spec.dump_md cfg self args w))
     = map fst files ++ registry_pages args self
  /\ (exists pages,
        written (Spec.dump_md cfg self args w) = files ++ pages
        /\ length pages = entity_count self)
  /\ (forall g text, triple_walk cfg self = Ok g -> serialize g = Ok text ->
      (Spec.gen_rdf serialize cfg self args w).1 = Ok tt
      /\ written (Spec.gen_rdf serialize cfg self args w).2
         = files ++ [(path_join (out args) ["tst.ttl"], text)])
  /\ (forall g e, triple_walk cfg self = Ok g -> serialize g = Raise e ->
      (Spec.gen_rdf serialize cfg self args w).1 = Raise e
      /\ written (Spec.gen_rdf serialize cfg self args w).2
         = files ++ [(path_join (out args) ["tst.ttl"], "")]).
Proof.
  intros Hno. cbn zeta.
  assert (isError (issue_all recs r0) = false) as Herr.
  { apply isError_without_filter. rewrite has_ErrorFoundFilter_issue_all. exact Hno. }
  destruct (gate_open serialize cfg self args
              {| root := issue_all recs r0; written := files |} Herr) as [Hd Hg].
  destruct (dump_md_pages cfg self args {| root := issue_all recs r0; written := files |})
    as [Hroot Hpages].
  destruct (registry_fold_paths cfg self args (dict_values (namespaces self))
              {| root := issue_all recs r0; written := files |}) as [_ Hpaths].
  split; [exact Herr|]. split; [exact Hd|]. rewrite Hd.
  split; [exact Hroot|]. split; [exact Hpaths|]. split; [exact Hpages|]. split.
  - intros g text Hwalk Htext. rewrite Hg, Hwalk, Htext. split; reflexivity.
  - intros g e Hwalk He. rewrite Hg, Hwalk, He. split; reflexivity.
Qed.

Lemma without_filter_outputs_are_produced_witness :
  (Spec.gen_rdf (fun _ => Ok "ttl") example_config registry_with_widget sample_args
     {| root := issue_all [error_record "SpecClass" "duplicate"] bare_root;
        written := [] |}).1 = Ok tt
  /\ written
       (Spec.gen_rdf (fun _ => Ok "ttl") example_config registry_with_widget sample_args
          {| root := issue_all [error_record "SpecClass" "duplicate"] bare_root;
             written := [] |}).2
     = [] ++ [(path_join (out sample_args) ["tst.ttl"], "ttl")].
Proof.
  pose proof (without_filter_outputs_are_produced (fun _ => Ok "ttl") example_config
                registry_with_widget sample_args bare_root
                [error_record "SpecClass" "duplicate"] [] eq_refl)
    as (_ & _ & _ & _ & _ & Hgen & _).
  apply (Hgen ({[ (URIRef "https://example.org/core#Widget", RDF_type, OWL "Class") ]}
                 ∪ {[ (URIRef "https://example.org/core#Widget", RDFS_subClassOf,
                       URIRef "https://example.org/base#Thing") ]}) "ttl");
    reflexivity.
Defined.

(** C10 as stated fails for [gen_rdf]: with no [ErrorFoundFilter] on the
    root logger and [id] declared with no value, an ERROR is issued and the
    page of the class is written, but [gen_rdf] raises in its walk, before
    the error check, and writes no file. *)
Lemma without_filter_gen_rdf_raises :
  isError bare_root = false
  /\ sample_run id_declared_empty bare_root
     = Some ([logging.ERROR], ["out/core/Classes/Widget.md"], Raise IndexError, [],
             ["Widget: Metadata key 'id' already exists"]).
Proof. split; vm_compute; reflexivity. Qed.
